(** * dxtbx sweep_filenames: template inference, grouping and matching

    A shallow embedding of [src/sweep_filenames.py] and the properties its
    specification states about it.

    Python [str] values are lists of characters, Python [int] values are
    in [Z], a [dict] is a [gmap], and an exception is a [Raise] outcome.
    The module is Python 2 code (the [global] statement that follows the
    assignments is only accepted there); it is read with that semantics. *)

From Stdlib Require Import ZArith Ascii String List Lia Bool.
From stdpp Require Import gmap strings list fin_maps.
Import ListNotations.

Local Open Scope Z_scope.

(** ** Python values *)

Abbreviation str := (list ascii).

(** A string literal of the source. *)
Definition py (x : string) : str := list_ascii_of_string x.

Inductive exn : Type :=
  IndexError | ValueError | TypeError | OSError | OverflowError.

Inductive outcome (A : Type) : Type :=
| Ok (a : A)
| Raise (e : exn).
Arguments Ok {A} a.
Arguments Raise {A} e.

#[global] Instance outcome_ret : MRet outcome := fun _ a => Ok a.

#[global] Instance outcome_bind : MBind outcome := fun _ _ f m =>
  match m with
  | Ok a => f a
  | Raise e => Raise e
  end.

#[global] Instance outcome_fmap : FMap outcome := fun _ _ f m =>
  match m with
  | Ok a => Ok (f a)
  | Raise e => Raise e
  end.

(** [l[i]] for a non-negative [i]: an [IndexError] out of range. *)
Definition index {A} (l : list A) (i : nat) : outcome A :=
  match nth_error l i with
  | Some x => Ok x
  | None => Raise IndexError
  end.

Definition is_digit (c : ascii) : bool :=
  ((48 <=? nat_of_ascii c) && (nat_of_ascii c <=? 57))%nat.

Definition digit_value (c : ascii) : Z := Z.of_nat (nat_of_ascii c) - 48.

Definition digit_char (d : Z) : ascii := ascii_of_nat (Z.to_nat d + 48).

(** The value of a string of decimal digits, most significant first. *)
Definition decimal_value (s : str) : Z :=
  fold_left (fun acc c => 10 * acc + digit_value c) s 0.

(** The local [digits] of [template_regex] holds the integer [0] until a
    pattern matches and a string afterwards. *)
Inductive pyval : Type :=
| PyInt (n : Z)
| PyStr (s : str).

(** [int(v)]. Only strings captured by [[0-9]+] reach it in this module;
    any other string is a [ValueError] here. *)
Definition int (v : pyval) : outcome Z :=
  match v with
  | PyInt n => Ok n
  | PyStr s =>
      match s with
      | [] => Raise ValueError
      | _ => if forallb is_digit s then Ok (decimal_value s) else Raise ValueError
      end
  end.

(** The longest prefix of [s] whose characters satisfy [ok], and what
    follows it. *)
Fixpoint take_while (ok : ascii -> bool) (s : str) : str :=
  match s with
  | c :: s' => if ok c then c :: take_while ok s' else []
  | [] => []
  end.

Fixpoint drop_while (ok : ascii -> bool) (s : str) : str :=
  match s with
  | c :: s' => if ok c then drop_while ok s' else s
  | [] => []
  end.

(** ** The regular expressions of [template_regex]

    The three patterns are sequences of literal characters and of the two
    capturing groups: one or more digits [0-9], and any run of characters
    other than a newline.  Both groups are greedy: the
    matcher tries the longest run first and gives characters back one at
    a time while the rest of the pattern fails, as [re] does. *)

Inductive item : Type :=
| Lit (c : ascii)     (* a literal character, such as [\.] and [_] *)
| Digits1             (* the group of one or more [0-9] *)
| AnyStar.            (* the group of any characters, written with a dot and a star *)

Abbreviation regex := (list item).

(** [.] matches every character but a newline. *)
Definition not_newline (c : ascii) : bool := negb (Ascii.eqb c "010"%char).

(** Greedy repetition of a character class: [acc] is the text taken so
    far, [k] matches the rest of the pattern. *)
Fixpoint star {R} (ok : ascii -> bool) (k : str -> str -> option R)
    (acc s : str) : option R :=
  match s with
  | c :: s' =>
      if ok c then
        match star ok k (acc ++ [c]) s' with
        | Some r => Some r
        | None => k acc s
        end
      else k acc s
  | [] => k acc s
  end.

(** [re.match]: the pattern is anchored at the start of [s] only.  The
    result is [match.groups()]. *)
Fixpoint re_match (p : regex) (s : str) : option (list str) :=
  match p with
  | [] => Some []
  | Lit c :: p' =>
      match s with
      | x :: s' => if Ascii.eqb x c then re_match p' s' else None
      | [] => None
      end
  | Digits1 :: p' =>
      match s with
      | x :: s' =>
          if is_digit x
          then star is_digit (fun g rest => cons g <$> re_match p' rest) [x] s'
          else None
      | [] => None
      end
  | AnyStar :: p' =>
      star not_newline (fun g rest => cons g <$> re_match p' rest) [] s
  end.

(** ** template_regex *)

Definition patterns : list regex :=
  [ [Digits1; Lit "."; AnyStar];
    [AnyStar; Lit "."; Digits1; Lit "_"; AnyStar];
    [AnyStar; Lit "."; Digits1; AnyStar] ].

Definition joiners : list str := [py "."; py "_"; py ""].

(** The locals [prefix], [digits] and [exten] assigned when pattern [j]
    has matched with [groups]. *)
Definition assign (j : nat) (groups : list str) : outcome (str * str * str) :=
  if (length groups =? 3)%nat then
    g0 ← index groups 0;
    g1 ← index groups 1;
    g2 ← index groups 2;
    jn ← index joiners j;
    Ok (rev g2 ++ jn, rev g1, py "." ++ rev g0)
  else
    g0 ← index groups 0;
    g1 ← index groups 1;
    jn ← index joiners j;
    Ok (rev g1 ++ jn, rev g0, py "").

(** [prefix + "".join(["#" for d in digits]) + exten] *)
Definition render_template (prefix digits exten : str) : str :=
  prefix ++ map (fun _ => "#"%char) digits ++ exten.

(** The [for] loop over [enumerate(compiled_patterns)], from index [j]
    on.  The result is the state of the locals when the loop ends:
    [template], [digits], and [prefix] and [exten] once they are bound. *)
Fixpoint loop (j : nat) (cps : list regex) (rfilename : str)
    : outcome (option str * pyval * option (str * str)) :=
  match cps with
  | [] => Ok (None, PyInt 0, None)
  | cp :: cps' =>
      match re_match cp rfilename with
      | None => loop (S j) cps' rfilename
      | Some groups =>
          '(prefix, digits, exten) ← assign j groups;
          Ok (Some (render_template prefix digits exten), PyStr digits,
              Some (prefix, exten))
      end
  end.

Definition template_locals (filename : str)
    : outcome (option str * pyval * option (str * str)) :=
  let rfilename := rev filename in
  loop 0 patterns rfilename.

Definition template_regex (filename : str) : outcome (option str * Z) :=
  '(template, digits, _) ← template_locals filename;
  n ← int digits;
  Ok (template, n).


(** ** group_files_by_imageset *)

(** The pair appended to the list [template] for the file [f] whose
    inference gave [t]. *)
Definition entry_of (f : str) (t : option str * Z) : str * option Z :=
  match t.1 with
  | None => (f, None)
  | Some key => (key, Some t.2)
  end.

(** The first loop: one entry per file name, in order. *)
Fixpoint collect (filenames : list str) (template : list (str * option Z))
    : outcome (list (str * option Z)) :=
  match filenames with
  | [] => Ok template
  | f :: filenames' =>
      t ← template_regex f;
      collect filenames' (template ++ [entry_of f t])
  end.

(** [matched[key].append(value)] on a [defaultdict(list)]. *)
Definition append_to (matched : gmap str (list (option Z)))
    (key : str) (value : option Z) : gmap str (list (option Z)) :=
  <[key := default [] (matched !! key) ++ [value]]> matched.

Definition group_files_by_imageset (filenames : list str)
    : outcome (gmap str (list (option Z))) :=
  template ← collect filenames [];
  let matched := foldl (fun matched t => append_to matched t.1 t.2) ∅ template in
  Ok matched.

(** ** Formatting integers *)

(** The [n] low decimal digits of [j], most significant first. *)
Fixpoint low_digits (n : nat) (j : Z) : str :=
  match n with
  | O => []
  | S n' => low_digits n' (j / 10) ++ [digit_char (j mod 10)]
  end.

(** The number of decimal digits of [j >= 0]. *)
Fixpoint count_digits (fuel : nat) (j : Z) : nat :=
  match fuel with
  | O => 1
  | S fuel' => if j <? 10 then 1%nat else S (count_digits fuel' (j / 10))
  end.

Definition ndigits (j : Z) : nat := count_digits (Z.to_nat (Z.log2 j)) j.

(** The conversion [d] with a width and possibly the flag [0]. *)
Definition format_d (zero : bool) (width : nat) (j : Z) : str :=
  let sign := if j <? 0 then py "-" else [] in
  let body := low_digits (ndigits (Z.abs j)) (Z.abs j) in
  let pad := (width - length sign - length body)%nat in
  if zero then sign ++ replicate pad "0"%char ++ body
  else replicate pad " "%char ++ sign ++ body.

(** Where the scan of a format string is. *)
Inductive fstate : Type :=
| Text                            (* outside a directive *)
| Flags (zero : bool)             (* after a percent sign, reading flags *)
| Width (zero : bool) (w : nat).  (* reading the width *)

(** [fmt % j] for one integer [j]: plain text, a doubled percent sign,
    and the conversion [d] with the flag [0] and a width, which is all
    that [find_matching_images] writes into a format itself.  [used]
    tells whether [j] has been consumed.  Other directives can only come
    from a percent sign in the file name; they are outside this model
    and end in [ValueError] here. *)
Fixpoint format_from (st : fstate) (used : bool) (fmt : str) (j : Z) : outcome str :=
  match fmt with
  | [] =>
      match st with
      | Text => if used then Ok [] else Raise TypeError
      | _ => Raise ValueError
      end
  | c :: fmt' =>
      let conv zero w :=
        if Ascii.eqb c "d" then
          if used then Raise TypeError
          else app (format_d zero w j) <$> format_from Text true fmt' j
        else Raise ValueError in
      match st with
      | Text =>
          if Ascii.eqb c "%" then format_from (Flags false) used fmt' j
          else cons c <$> format_from Text used fmt' j
      | Flags zero =>
          if Ascii.eqb c "%" then cons "%"%char <$> format_from Text used fmt' j
          else if Ascii.eqb c "0" then format_from (Flags true) used fmt' j
          else if is_digit c
               then format_from (Width zero (Z.to_nat (digit_value c))) used fmt' j
          else conv zero 0%nat
      | Width zero w =>
          if is_digit c
          then format_from (Width zero (10 * w + Z.to_nat (digit_value c))) used fmt' j
          else conv zero w
      end
  end.

Definition format_int (fmt : str) (j : Z) : outcome str :=
  format_from Text false fmt j.

(** ** Paths and the directory listing *)

Fixpoint str_eqb (a b : str) : bool :=
  match a, b with
  | [], [] => true
  | x :: a', y :: b' => Ascii.eqb x y && str_eqb a' b'
  | _, _ => false
  end.

(** [name in files] *)
Definition mem (name : str) (files : list str) : bool :=
  existsb (str_eqb name) files.

Definition is_slash (c : ascii) : bool := Ascii.eqb c "/".

(** [os.path.split] of [posixpath]: the head loses its trailing slashes
    unless it consists of slashes only. *)
Definition os_path_split (p : str) : str * str :=
  let tail := rev (take_while (fun c => negb (is_slash c)) (rev p)) in
  let head := rev (drop_while (fun c => negb (is_slash c)) (rev p)) in
  let head :=
    if negb (str_eqb head []) && negb (forallb is_slash head)
    then rev (drop_while is_slash (rev head))
    else head in
  (head, tail).

(** [os.path.join] of [posixpath] for two components. *)
Definition os_path_join (a b : str) : str :=
  match b with
  | "/"%char :: _ => b
  | _ =>
      match rev a with
      | [] => b
      | "/"%char :: _ => a ++ b
      | _ => a ++ py "/" ++ b
      end
  end.

(** [os.listdir]: the entries of a directory, or an [OSError]. *)
Definition filesystem : Type := str -> outcome (list str).

(** A computation that may list directories: it reads the file system
    and extends the log of the directories listed so far. *)
Definition IO (A : Type) : Type := filesystem -> list str -> outcome A * list str.

#[global] Instance IO_ret : MRet IO := fun _ a _ log => (Ok a, log).

#[global] Instance IO_bind : MBind IO := fun _ _ f m fs log =>
  match m fs log with
  | (Ok a, log') => f a fs log'
  | (Raise e, log') => (Raise e, log')
  end.

Definition lift {A} (m : outcome A) : IO A := fun _ log => (m, log).

Definition os_listdir (directory : str) : IO (list str) :=
  fun fs log => (fs directory, log ++ [directory]).

(** ** find_matching_images *)

(** [s.count(c)] and [s.split(c)] for a one-character [c]. *)
Definition count (c : ascii) (s : str) : nat :=
  length (filter (fun x => Ascii.eqb x c = true) s).

Fixpoint split (c : ascii) (s : str) : list str :=
  match s with
  | [] => [[]]
  | x :: s' =>
      if Ascii.eqb x c then [] :: split c s'
      else
        match split c s' with
        | w :: ws => (x :: w) :: ws
        | [] => [[x]]
        end
  end.

(** [l[-1]] *)
Definition index_last {A} (l : list A) : outcome A :=
  match last l with
  | Some x => Ok x
  | None => Raise IndexError
  end.

(** The integers from 0 up to [n], excluded, in increasing order. *)
Definition upto (n : Z) : list Z := map Z.of_nat (seq 0 (Z.to_nat n)).

(** The largest plain integer of Python 2, where a C long has 64 bits. *)
Definition sys_maxint : Z := 2 ^ 63 - 1.

(** [range(0, n)] of Python 2: the list itself, and an [OverflowError]
    when [n] does not fit a plain integer. *)
Definition range0 (n : Z) : outcome (list Z) :=
  if n <=? sys_maxint then Ok (upto n) else Raise OverflowError.

(** The loop over the candidate indices. *)
Fixpoint scan (template_str : str) (files_in_directory : list str)
    (directory : str) (js : list Z) (matching_images : list str)
    : outcome (list str) :=
  match js with
  | [] => Ok matching_images
  | j :: js' =>
      name ← format_int template_str j;
      if mem name files_in_directory then
        name' ← format_int template_str j;
        scan template_str files_in_directory directory js'
          (matching_images ++ [os_path_join directory name'])
      else scan template_str files_in_directory directory js' matching_images
  end.

(** The truth value of [template]: neither [None] nor empty. *)
Definition truthy (template : option str) : bool :=
  match template with
  | Some (_ :: _) => true
  | _ => false
  end.

Definition find_matching_images (image_name : str) : IO (list str) :=
  let '(directory, filename) := os_path_split image_name in
  let directory := if str_eqb directory [] then py "." else directory in
  '(template, digits) ← lift (template_regex filename);
  if truthy template then
    let template := default [] template in
    let len_digits := count "#" template in
    pfx ← lift (index (split "#" template) 0);
    sfx ← lift (index_last (split "#" template));
    width ← lift (format_int (py "%%0%dd") (Z.of_nat len_digits));
    let template_str := pfx ++ width ++ sfx in
    files_in_directory ← os_listdir directory;
    js ← lift (range0 (10 ^ Z.of_nat len_digits));
    lift (scan template_str files_in_directory directory js [])
  else
    mret [image_name].

(** A directory listing for examples: [entries] in [directory], and an
    [OSError] for any other directory. *)
Definition one_directory (directory : str) (entries : list str) : filesystem :=
  fun d => if str_eqb d directory then Ok entries else Raise OSError.
(** ** Notions used to state and prove the properties *)

(** The text a pattern has matched, rebuilt from its groups. *)
Fixpoint text (p : regex) (gs : list str) : str :=
  match p with
  | [] => []
  | Lit c :: p' => c :: text p' gs
  | _ :: p' =>
      match gs with
      | g :: gs' => g ++ text p' gs'
      | [] => []
      end
  end.

Fixpoint groups_ok (p : regex) (gs : list str) : Prop :=
  match p with
  | [] => gs = []
  | Lit c :: p' => groups_ok p' gs
  | Digits1 :: p' =>
      match gs with
      | g :: gs' => g <> [] /\ forallb is_digit g = true /\ groups_ok p' gs'
      | [] => False
      end
  | AnyStar :: p' =>
      match gs with
      | g :: gs' => forallb not_newline g = true /\ groups_ok p' gs'
      | [] => False
      end
  end.

(** The literals of the three patterns. *)
Definition lit_ok (it : item) : bool :=
  match it with
  | Lit c => Ascii.eqb c "." || Ascii.eqb c "_"
  | _ => true
  end.

Definition newline : ascii := "010"%char.

(** Two characters the patterns cannot tell apart. *)
Definition same_class (c c' : ascii) : Prop :=
  is_digit c = is_digit c' /\
  Ascii.eqb c "." = Ascii.eqb c' "." /\
  Ascii.eqb c "_" = Ascii.eqb c' "_" /\
  not_newline c = not_newline c'.

Abbreviation sim := (Forall2 same_class).

(** The first pattern of [cps] that matches [r]: its index counted from
    [j], the pattern, and its groups. *)
Fixpoint first_match (j : nat) (cps : list regex) (r : str)
    : option (nat * regex * list str) :=
  match cps with
  | [] => None
  | cp :: cps' =>
      match re_match cp r with
      | Some groups => Some (j, cp, groups)
      | None => first_match (S j) cps' r
      end
  end.

(** What the loop leaves in the locals when pattern [j] has matched. *)
Definition bound (j : nat) (groups : list str)
    : outcome (option str * pyval * option (str * str)) :=
  '(prefix, digits, exten) ← assign j groups;
  Ok (Some (render_template prefix digits exten), PyStr digits, Some (prefix, exten)).

(** A pattern ends in the any-characters group and has no literal but
    the dot and the underscore. *)
Definition plain (p : regex) : Prop :=
  forallb lit_ok p = true /\ last p = Some AnyStar.

(** The three heuristics, in the order of [patterns]. *)
Definition bare_numeric : regex := [Digits1; Lit "."; AnyStar].
Definition underscore_delimited : regex := [AnyStar; Lit "."; Digits1; Lit "_"; AnyStar].
Definition generic_suffix : regex := [AnyStar; Lit "."; Digits1; AnyStar].

(** The number of values in all the groups together. *)
Definition total_values (matched : gmap str (list (option Z))) : nat :=
  map_fold (fun _ values n => (length values + n)%nat) 0%nat matched.

(** The values of the entries filed under [key], in the order of the
    entries. *)
Definition values_for (key : str) (template : list (str * option Z))
    : list (option Z) :=
  (filter (fun t => t.1 = key) template).*2.

(** The text after a run [a] does not go on with a character of the
    class. *)
Definition stops (ok : ascii -> bool) (b : str) : Prop :=
  match b with
  | c :: _ => ok c = false
  | [] => True
  end.

Definition is_underscore (c : ascii) : bool := Ascii.eqb c "_".

(** The entry of a file name in the list [template] of
    [group_files_by_imageset]. *)
Definition entry (f : str) : str * option Z :=
  match template_regex f with
  | Ok t => entry_of f t
  | Raise _ => (f, None)
  end.

(** The dictionary built by the second loop from the entries. *)
Definition grouped (entries : list (str * option Z)) : gmap str (list (option Z)) :=
  foldl (fun matched t => append_to matched t.1 t.2) ∅ entries.

(** The directory that [find_matching_images] lists for a path whose
    directory part is [directory]. *)
Definition listed_directory (directory : str) : str :=
  if str_eqb directory [] then py "." else directory.
(** * Properties *)

(** ** Facts about the matcher *)

#[local] Arguments Ascii.eqb : simpl never.

Lemma take_drop_while ok s : take_while ok s ++ drop_while ok s = s.
Proof. induction s as [|c s IH]; simpl; [done|]. destruct (ok c); simpl; congruence. Qed.

Lemma take_while_all ok s : forallb ok (take_while ok s) = true.
Proof. induction s as [|c s IH]; simpl; [done|]. destruct (ok c) eqn:E; simpl; [|done]. by rewrite E. Qed.

Lemma take_while_id ok s : forallb ok s = true -> take_while ok s = s.
Proof.
  induction s as [|c s IH]; simpl; [done|].
  intros [Hc Hs]%andb_prop. rewrite Hc. f_equal. auto.
Qed.

Lemma drop_while_head ok s :
  drop_while ok s = [] \/ exists c t, drop_while ok s = c :: t /\ ok c = false.
Proof.
  induction s as [|c s IH]; simpl; [by left|].
  destruct (ok c) eqn:E; [done|]. right. eauto.
Qed.

(** A greedy group followed by something that always matches takes the
    longest run. *)
Lemma star_greedy_total {R} ok (k : str -> str -> option R) :
  (forall g rest, is_Some (k g rest)) ->
  forall s acc, star ok k acc s = k (acc ++ take_while ok s) (drop_while ok s).
Proof.
  intros Hk. induction s as [|c s IH]; intros acc; simpl.
  - by rewrite app_nil_r.
  - destruct (ok c); [|by rewrite app_nil_r].
    rewrite IH, <- app_assoc. simpl.
    by destruct (Hk (acc ++ c :: take_while ok s) (drop_while ok s)) as [r ->].
Qed.

(** What a successful greedy group has taken. *)
Lemma star_sound {R} ok (k : str -> str -> option R) s : forall acc r,
  star ok k acc s = Some r ->
  exists a b, s = a ++ b /\ forallb ok a = true /\ k (acc ++ a) b = Some r.
Proof.
  induction s as [|c s IH]; intros acc r; simpl.
  - intros H. exists [], []. rewrite (app_nil_r acc). auto.
  - destruct (ok c) eqn:Hc.
    + destruct (star ok k (acc ++ [c]) s) as [r'|] eqn:E.
      * intros [= <-]. destruct (IH _ _ E) as (a & b & -> & Ha & Hk).
        exists (c :: a), b. split; [done|]. split; [simpl; by rewrite Hc|].
        by rewrite <- app_assoc in Hk.
      * intros H. exists [], (c :: s). rewrite (app_nil_r acc). auto.
    + intros H. exists [], (c :: s). rewrite (app_nil_r acc). auto.
Qed.

(** One step of a successful match. *)
Lemma re_match_cons_inv it p s gs :
  re_match (it :: p) s = Some gs ->
  match it with
  | Lit c => exists s', s = c :: s' /\ re_match p s' = Some gs
  | Digits1 => exists g b gs', s = g ++ b /\ g <> [] /\ forallb is_digit g = true /\
                 gs = g :: gs' /\ re_match p b = Some gs'
  | AnyStar => exists g b gs', s = g ++ b /\ forallb not_newline g = true /\
                 gs = g :: gs' /\ re_match p b = Some gs'
  end.
Proof.
  destruct it as [c| |]; simpl.
  - destruct s as [|x s']; [done|]. destruct (Ascii.eqb_spec x c) as [->|]; [|done]. eauto.
  - destruct s as [|x s']; [done|]. destruct (is_digit x) eqn:Hx; [|done].
    intros (a & b & -> & Ha & Hk)%star_sound.
    destruct (re_match p b) as [gs'|] eqn:E; [|done]. injection Hk as <-.
    exists (x :: a), b, gs'. simpl. rewrite Hx, Ha. done.
  - intros (a & b & -> & Ha & Hk)%star_sound.
    destruct (re_match p b) as [gs'|] eqn:E; [|done]. injection Hk as <-.
    exists a, b, gs'. done.
Qed.

Lemma re_match_sound p : forall s gs,
  re_match p s = Some gs -> groups_ok p gs /\ exists rest, s = text p gs ++ rest.
Proof.
  induction p as [|it p IH]; intros s gs H.
  - injection H as <-. split; [done|]. by exists s.
  - apply re_match_cons_inv in H. destruct it as [c| |].
    + destruct H as (s' & -> & H). destruct (IH _ _ H) as (Hg & rest & ->).
      split; [done|]. by exists rest.
    + destruct H as (g & b & gs' & -> & Hne & Hd & -> & H).
      destruct (IH _ _ H) as (Hg & rest & ->).
      split; [done|]. exists rest. simpl. by rewrite <- app_assoc.
    + destruct H as (g & b & gs' & -> & Hd & -> & H).
      destruct (IH _ _ H) as (Hg & rest & ->).
      split; [done|]. exists rest. simpl. by rewrite <- app_assoc.
Qed.

(** On a text without newline, a pattern that ends in the any-characters
    group matches the whole text. *)
Lemma re_match_all p : forall s gs,
  last p = Some AnyStar -> forallb not_newline s = true ->
  re_match p s = Some gs -> s = text p gs.
Proof.
  induction p as [|it p IH]; intros s gs Hl Hs H; [done|].
  destruct p as [|it' p'].
  - injection Hl as ->. simpl in H.
    rewrite star_greedy_total in H by (intros; simpl; eauto).
    simpl in H. injection H as <-. simpl. rewrite app_nil_r.
    symmetry. by apply take_while_id.
  - assert (Hl' : last (it' :: p') = Some AnyStar) by done. clear Hl.
    apply re_match_cons_inv in H. destruct it as [c| |].
    + destruct H as (s' & -> & H). simpl in Hs. apply andb_prop in Hs as [_ Hs].
      change (text (Lit c :: it' :: p') gs) with (c :: text (it' :: p') gs).
      f_equal. by apply IH.
    + destruct H as (g & b & gs' & -> & Hne & Hd & -> & H).
      rewrite forallb_app in Hs. apply andb_prop in Hs as [_ Hs].
      change (text (Digits1 :: it' :: p') (g :: gs')) with (g ++ text (it' :: p') gs').
      f_equal. by apply IH.
    + destruct H as (g & b & gs' & -> & Hd & -> & H).
      rewrite forallb_app in Hs. apply andb_prop in Hs as [_ Hs].
      change (text (AnyStar :: it' :: p') (g :: gs')) with (g ++ text (it' :: p') gs').
      f_equal. by apply IH.
Qed.

Lemma star_newline {R} ok (k : str -> str -> option R) t :
  ok newline = false ->
  (forall g x, k g (x ++ newline :: t) = k g x) ->
  forall x acc, star ok k acc (x ++ newline :: t) = star ok k acc x.
Proof.
  intros Hnl Hk. induction x as [|c x IH]; intros acc; simpl.
  - rewrite Hnl. apply (Hk acc []).
  - destruct (ok c); [|apply (Hk acc (c :: x))].
    rewrite IH. destruct (star ok k (acc ++ [c]) x); [done|]. apply (Hk acc (c :: x)).
Qed.

(** Nothing after the first newline of the text takes part in a match. *)
Lemma re_match_newline p t : forallb lit_ok p = true ->
  forall x, re_match p (x ++ newline :: t) = re_match p x.
Proof.
  induction p as [|it p IH]; intros Hp x; [done|].
  simpl in Hp. apply andb_prop in Hp as [Hit Hp]. specialize (IH Hp).
  destruct it as [c| |]; simpl.
  - destruct x as [|c' x]; simpl; [|by rewrite IH].
    simpl in Hit. destruct (Ascii.eqb_spec newline c) as [<-|]; done.
  - destruct x as [|c' x]; simpl; [done|].
    destruct (is_digit c'); [|done].
    apply star_newline; [done|]. intros g y. by rewrite IH.
  - apply star_newline; [done|]. intros g y. by rewrite IH.
Qed.

Lemma re_match_first_line p s : forallb lit_ok p = true ->
  re_match p (take_while not_newline s) = re_match p s.
Proof.
  intros Hp. rewrite <- (take_drop_while not_newline s) at 2.
  destruct (drop_while_head not_newline s) as [->|(c & t & -> & Hc)].
  - by rewrite app_nil_r.
  - unfold not_newline in Hc. apply negb_false_iff in Hc.
    apply Ascii.eqb_eq in Hc as ->. symmetry. by apply re_match_newline.
Qed.

Lemma same_class_refl c : same_class c c.
Proof. by repeat split. Qed.

Lemma sim_refl s : sim s s.
Proof. induction s; constructor; auto using same_class_refl. Qed.

Lemma same_class_digits c c' :
  is_digit c = true -> is_digit c' = true -> same_class c c'.
Proof.
  intros H H'. unfold same_class, not_newline. rewrite H, H'.
  assert (E : forall x d, is_digit x = true -> is_digit d = false -> Ascii.eqb x d = false).
  { intros x d Hx Hd. destruct (Ascii.eqb_spec x d) as [->|]; congruence. }
  rewrite !(E c), !(E c') by done. done.
Qed.

Lemma sim_digits d d' :
  forallb is_digit d = true -> forallb is_digit d' = true ->
  length d = length d' -> sim d d'.
Proof.
  revert d'. induction d as [|c d IH]; intros [|c' d']; simpl; try done.
  intros [Hc Hd]%andb_prop [Hc' Hd']%andb_prop [= Hl].
  constructor; auto using same_class_digits.
Qed.

Lemma star_sim {R} (rel : R -> R -> Prop) ok (k : str -> str -> option R) :
  (forall c c', same_class c c' -> ok c = ok c') ->
  (forall g g' r r', sim g g' -> sim r r' -> option_Forall2 rel (k g r) (k g' r')) ->
  forall s s', sim s s' -> forall acc acc', sim acc acc' ->
  option_Forall2 rel (star ok k acc s) (star ok k acc' s').
Proof.
  intros Hok Hk s s' Hs. induction Hs as [|c c' s s' Hc Hs IH]; intros acc acc' Ha; simpl.
  - apply Hk; [done|constructor].
  - assert (Hrest : option_Forall2 rel (k acc (c :: s)) (k acc' (c' :: s'))).
    { apply Hk; [done|by constructor]. }
    rewrite <- (Hok _ _ Hc). destruct (ok c); [|done].
    assert (Hacc : sim (acc ++ [c]) (acc' ++ [c'])).
    { apply Forall2_app; [done|]. constructor; [done|constructor]. }
    destruct (IH _ _ Hacc); [by constructor|done].
Qed.

(** Matching depends on the classes of the characters only. *)
Lemma re_match_sim p : forallb lit_ok p = true ->
  forall s s', sim s s' ->
  option_Forall2 (Forall2 sim) (re_match p s) (re_match p s').
Proof.
  induction p as [|it p IH]; intros Hp s s' Hs.
  { repeat constructor. }
  simpl in Hp. apply andb_prop in Hp as [Hit Hp]. specialize (IH Hp).
  assert (Hk : forall g g' r r', sim g g' -> sim r r' ->
            option_Forall2 (Forall2 sim) (cons g <$> re_match p r) (cons g' <$> re_match p r')).
  { intros g g' r r' Hg Hr. destruct (IH _ _ Hr); simpl; repeat constructor; done. }
  destruct it as [c| |]; simpl.
  - destruct Hs as [|x x' s s' Hx Hs]; [constructor|].
    destruct Hx as (_ & Hdot & Hus & _). simpl in Hit.
    assert (E : Ascii.eqb x c = Ascii.eqb x' c).
    { apply orb_prop in Hit as [->%Ascii.eqb_eq | ->%Ascii.eqb_eq]; done. }
    rewrite <- E. destruct (Ascii.eqb x c); [by apply IH|constructor].
  - destruct Hs as [|x x' s s' Hx Hs]; [constructor|].
    pose proof Hx as (Hd & _). rewrite <- Hd. destruct (is_digit x); [|constructor].
    apply star_sim; [by intros ?? (? & _)|done|done|].
    constructor; [done|constructor].
  - apply star_sim; [by intros ?? (_ & _ & _ & ?)|done|done|constructor].
Qed.

Lemma text_sim p : forall gs gs',
  Forall2 sim gs gs' -> sim (text p gs) (text p gs').
Proof.
  induction p as [|it p IH]; intros gs gs' H; [constructor|].
  destruct it as [c| |]; simpl.
  - constructor; [apply same_class_refl|by apply IH].
  - destruct H; [constructor|]. apply Forall2_app; [done|by apply IH].
  - destruct H; [constructor|]. apply Forall2_app; [done|by apply IH].
Qed.

(** Groups of the same lengths at the same places are the same groups. *)
Lemma text_inj p : forall gs gs' rest rest',
  Forall2 (fun g g' : str => length g = length g') gs gs' ->
  groups_ok p gs ->
  text p gs ++ rest = text p gs' ++ rest' -> gs = gs'.
Proof.
  induction p as [|it p IH]; intros gs gs' rest rest' Hl Hg E.
  - simpl in Hg. subst gs. by inversion Hl.
  - destruct it as [c| |]; simpl in *.
    + injection E as E. eauto.
    + destruct Hl as [|g g' gs gs' Hlen Hl]; [done|]. destruct Hg as (_ & _ & Hg).
      rewrite <- !app_assoc in E. apply app_inj_1 in E as [-> E]; [|done].
      f_equal. eauto.
    + destruct Hl as [|g g' gs gs' Hlen Hl]; [done|]. destruct Hg as (_ & Hg).
      rewrite <- !app_assoc in E. apply app_inj_1 in E as [-> E]; [|done].
      f_equal. eauto.
Qed.

Lemma sim_same_lengths (gs gs1 gs2 : list str) :
  Forall2 sim gs gs1 -> Forall2 sim gs gs2 ->
  Forall2 (fun g g' : str => length g = length g') gs1 gs2.
Proof.
  intros H1. revert gs2. induction H1 as [|g g1 gs gs1 Hg H1 IH]; intros gs2 H2.
  - inversion H2. constructor.
  - inversion H2 as [|? g2 ? gs2' Hg2 H2']; subst. constructor; [|by apply IH].
    apply Forall2_length in Hg, Hg2. congruence.
Qed.

(** ** The loop over the patterns *)

Lemma loop_first_match cps : forall j r,
  loop j cps r =
  match first_match j cps r with
  | None => Ok (None, PyInt 0, None)
  | Some (j', _, groups) => bound j' groups
  end.
Proof.
  induction cps as [|cp cps IH]; intros j r; simpl; [done|].
  destruct (re_match cp r); [done|apply IH].
Qed.

Lemma first_match_Some cps : forall j r j' p gs,
  first_match j cps r = Some (j', p, gs) ->
  re_match p r = Some gs /\ p ∈ cps.
Proof.
  induction cps as [|cp cps IH]; intros j r j' p gs; simpl; [done|].
  destruct (re_match cp r) eqn:E.
  - intros [= <- <- <-]. split; [done|left].
  - intros H. destruct (IH _ _ _ _ _ H). split; [done|by right].
Qed.

Lemma first_match_first_line cps : Forall plain cps ->
  forall j r, first_match j cps (take_while not_newline r) = first_match j cps r.
Proof.
  induction 1 as [|cp cps [Hcp _] _ IH]; intros j r; simpl; [done|].
  rewrite re_match_first_line by done. destruct (re_match cp r); [done|apply IH].
Qed.

Lemma first_match_sim cps : Forall plain cps ->
  forall j r r', sim r r' ->
  match first_match j cps r with
  | None => first_match j cps r' = None
  | Some (j', p, gs) =>
      exists gs', first_match j cps r' = Some (j', p, gs') /\ Forall2 sim gs gs'
  end.
Proof.
  induction 1 as [|cp cps [Hcp _] _ IH]; intros j r r' Hr; simpl; [done|].
  destruct (re_match_sim cp Hcp r r' Hr) as [gs gs' Hgs|]; [eauto|by apply IH].
Qed.

(** The match is the same when every group is replaced by a group of the
    same length and classes, and what follows the match is dropped. *)
Lemma first_match_text cps j r j' p gs gs' :
  Forall plain cps ->
  first_match j cps r = Some (j', p, gs) ->
  Forall2 sim gs gs' ->
  first_match j cps (text p gs') = Some (j', p, gs').
Proof.
  intros Hcps Hm Hgs.
  rewrite <- first_match_first_line in Hm by done.
  destruct (first_match_Some _ _ _ _ _ _ Hm) as [Hp Hin].
  assert (Hplain : plain p) by (rewrite Forall_forall in Hcps; auto).
  destruct Hplain as [Hlit Hlast].
  assert (Hr : take_while not_newline r = text p gs).
  { apply re_match_all; [done|apply take_while_all|done]. }
  rewrite Hr in Hm.
  pose proof (first_match_sim cps Hcps j _ _ (text_sim p _ _ Hgs)) as Hs.
  rewrite Hm in Hs. destruct Hs as (gs'' & Hm' & Hgs'').
  destruct (first_match_Some _ _ _ _ _ _ Hm') as [Hp' _].
  destruct (re_match_sound _ _ _ Hp') as (Hok & rest & E).
  assert (gs'' = gs') as ->; [|done].
  eapply (text_inj p _ _ rest []); [by eapply sim_same_lengths|done|].
  by rewrite app_nil_r.
Qed.

Lemma patterns_plain : Forall plain patterns.
Proof. repeat constructor. Qed.

Lemma forallb_rev (ok : ascii -> bool) s : forallb ok (rev s) = forallb ok s.
Proof.
  induction s as [|c s IH]; simpl; [done|].
  rewrite forallb_app, IH. simpl. rewrite andb_true_r. apply andb_comm.
Qed.

Lemma rev_nonempty (s : str) : s <> [] -> rev s <> [].
Proof. intros H E. apply H. by rewrite <- (rev_involutive s), E. Qed.

Lemma first_match_index cps : forall j r j' p gs,
  first_match j cps r = Some (j', p, gs) ->
  nth_error cps (j' - j) = Some p /\ (j <= j' < j + length cps)%nat.
Proof.
  induction cps as [|cp cps IH]; intros j r j' p gs; simpl; [done|].
  destruct (re_match cp r).
  - intros [= <- <- <-]. rewrite Nat.sub_diag. split; [done|lia].
  - intros [Hn Hj]%IH. replace (j' - j)%nat with (S (j' - S j)) by lia.
    split; [done|lia].
Qed.

Lemma first_match_patterns r j p gs :
  first_match 0 patterns r = Some (j, p, gs) ->
  nth_error patterns j = Some p /\ (j < 3)%nat.
Proof.
  intros [Hn Hj]%first_match_index. rewrite Nat.sub_0_r in Hn.
  split; [done|]. simpl in Hj. lia.
Qed.

Ltac rev_norm :=
  simpl;
  repeat first [ rewrite rev_app_distr | rewrite rev_involutive | rewrite app_nil_r
               | rewrite <- app_assoc | progress simpl ];
  try done.

(** The locals bound by the pattern that matched, and the same match with
    another run of digits of the same length. *)
Lemma matched_shape r j p gs :
  first_match 0 patterns r = Some (j, p, gs) ->
  exists prefix digits exten,
    assign j gs = Ok (prefix, digits, exten) /\
    digits <> [] /\ forallb is_digit digits = true /\
    text p gs = rev (prefix ++ digits ++ exten) /\
    forall digits', forallb is_digit digits' = true -> length digits' = length digits ->
      exists gs', Forall2 sim gs gs' /\
        text p gs' = rev (prefix ++ digits' ++ exten) /\
        assign j gs' = Ok (prefix, digits', exten).
Proof.
  intros H. destruct (first_match_Some _ _ _ _ _ _ H) as [Hm _].
  apply re_match_sound in Hm as [Hg _].
  apply first_match_patterns in H as [Hp Hj].
  destruct j as [|[|[|j]]]; [| | |lia]; injection Hp as <-; simpl in Hg.
  - destruct gs as [|d [|g [|]]]; try (by intuition). destruct Hg as (Hne & Hd & Hnn & _).
    exists (rev g ++ py "."), (rev d), (py ""). split_and!.
    + done.
    + by apply rev_nonempty.
    + by rewrite forallb_rev.
    + rev_norm.
    + intros d' Hd' Hl. exists [rev d'; g]. split_and!.
      * constructor; [|constructor; [apply sim_refl|constructor]].
        apply sim_digits; [done|by rewrite forallb_rev|].
        rewrite length_rev in Hl |- *. done.
      * rev_norm.
      * unfold assign. rev_norm.
  - destruct gs as [|g0 [|d [|g2 [|]]]]; try (by intuition).
    destruct Hg as (Hn0 & Hne & Hd & Hn2 & _).
    exists (rev g2 ++ py "_"), (rev d), (py "." ++ rev g0). split_and!.
    + done.
    + by apply rev_nonempty.
    + by rewrite forallb_rev.
    + rev_norm.
    + intros d' Hd' Hl. exists [g0; rev d'; g2]. split_and!.
      * constructor; [apply sim_refl|]. constructor; [|constructor; [apply sim_refl|constructor]].
        apply sim_digits; [done|by rewrite forallb_rev|].
        rewrite length_rev in Hl |- *. done.
      * rev_norm.
      * unfold assign. rev_norm.
  - destruct gs as [|g0 [|d [|g2 [|]]]]; try (by intuition).
    destruct Hg as (Hn0 & Hne & Hd & Hn2 & _).
    exists (rev g2 ++ py ""), (rev d), (py "." ++ rev g0). split_and!.
    + done.
    + by apply rev_nonempty.
    + by rewrite forallb_rev.
    + rev_norm.
    + intros d' Hd' Hl. exists [g0; rev d'; g2]. split_and!.
      * constructor; [apply sim_refl|]. constructor; [|constructor; [apply sim_refl|constructor]].
        apply sim_digits; [done|by rewrite forallb_rev|].
        rewrite length_rev in Hl |- *. done.
      * rev_norm.
      * unfold assign. rev_norm.
Qed.

(** ** Decimal digits *)

Lemma digit_char_spec d : 0 <= d < 10 ->
  is_digit (digit_char d) = true /\ digit_value (digit_char d) = d.
Proof.
  intros H.
  assert (d = 0 \/ d = 1 \/ d = 2 \/ d = 3 \/ d = 4 \/ d = 5 \/ d = 6 \/ d = 7 \/
          d = 8 \/ d = 9) as Hd by lia.
  repeat (destruct Hd as [->|Hd]; [done|]). by subst.
Qed.

Lemma is_digit_value c : is_digit c = true -> 0 <= digit_value c < 10.
Proof.
  unfold is_digit, digit_value. intros [H1 H2]%andb_prop.
  apply Nat.leb_le in H1, H2. lia.
Qed.

Lemma decimal_value_snoc s c :
  decimal_value (s ++ [c]) = 10 * decimal_value s + digit_value c.
Proof. unfold decimal_value. by rewrite fold_left_app. Qed.

Lemma decimal_value_bound s : forallb is_digit s = true ->
  0 <= decimal_value s < 10 ^ Z.of_nat (length s).
Proof.
  induction s as [|c s IH] using rev_ind; [done|].
  rewrite forallb_app, length_app, decimal_value_snoc. simpl.
  intros [Hs [Hc _]%andb_prop]%andb_prop. specialize (IH Hs).
  apply is_digit_value in Hc.
  replace (Z.of_nat (length s + 1)) with (Z.succ (Z.of_nat (length s))) by lia.
  rewrite Z.pow_succ_r by lia. lia.
Qed.

Lemma low_digits_length n : forall j, length (low_digits n j) = n.
Proof.
  induction n as [|n IH]; intros j; simpl; [done|].
  rewrite length_app, IH. simpl. lia.
Qed.

Lemma low_digits_all n : forall j, forallb is_digit (low_digits n j) = true.
Proof.
  induction n as [|n IH]; intros j; simpl; [done|].
  rewrite forallb_app, IH. simpl.
  destruct (digit_char_spec (j mod 10)) as [-> _]; [|done].
  apply Z.mod_pos_bound. lia.
Qed.

Lemma low_digits_value n : forall j,
  decimal_value (low_digits n j) = j mod 10 ^ Z.of_nat n.
Proof.
  induction n as [|n IH]; intros j.
  - simpl. by rewrite Z.mod_1_r.
  - cbn [low_digits]. rewrite decimal_value_snoc, IH.
    destruct (digit_char_spec (j mod 10)) as [_ ->]; [apply Z.mod_pos_bound; lia|].
    rewrite Nat2Z.inj_succ, Z.pow_succ_r by lia.
    rewrite (Z.rem_mul_r j 10 (10 ^ Z.of_nat n)) by lia. lia.
Qed.

Lemma low_digits_zero n : low_digits n 0 = replicate n "0"%char.
Proof.
  induction n as [|n IH]; [done|].
  cbn [low_digits]. change (0 / 10) with 0. rewrite IH.
  change [digit_char (0 mod 10)] with (replicate 1 "0"%char).
  rewrite <- replicate_add. by replace (n + 1)%nat with (S n) by lia.
Qed.

Lemma low_digits_pad n : forall w j, 0 <= j < 10 ^ Z.of_nat n -> (n <= w)%nat ->
  low_digits w j = replicate (w - n) "0"%char ++ low_digits n j.
Proof.
  induction n as [|n IH]; intros w j Hj Hw.
  - simpl in Hj. assert (j = 0) as -> by lia.
    rewrite low_digits_zero, Nat.sub_0_r. simpl. by rewrite app_nil_r.
  - destruct w as [|w]; [lia|]. cbn [low_digits].
    rewrite Nat2Z.inj_succ, Z.pow_succ_r in Hj by lia.
    rewrite (IH w (j / 10)); [|split|lia].
    + rewrite <- app_assoc. by replace (S w - S n)%nat with (w - n)%nat by lia.
    + apply Z.div_pos; lia.
    + apply Z.div_lt_upper_bound; lia.
Qed.

Lemma count_digits_le fuel : forall w j, 0 <= j < 10 ^ Z.of_nat w -> (1 <= w)%nat ->
  (count_digits fuel j <= w)%nat.
Proof.
  induction fuel as [|fuel IH]; intros w j Hj Hw; simpl; [done|].
  destruct (Z.ltb_spec j 10); [done|].
  destruct w as [|w]; [lia|].
  rewrite Nat2Z.inj_succ, Z.pow_succ_r in Hj by lia.
  destruct w as [|w]; [simpl in Hj; lia|].
  apply le_n_S, IH; [|lia]. split; [apply Z.div_pos; lia|].
  apply Z.div_lt_upper_bound; lia.
Qed.

(** With enough fuel, [count_digits] digits hold the number. *)
Lemma count_digits_enough fuel : forall j, 0 <= j < 10 ^ Z.of_nat (S fuel) ->
  j < 10 ^ Z.of_nat (count_digits fuel j).
Proof.
  induction fuel as [|fuel IH]; intros j Hj; [simpl in *; lia|].
  cbn [count_digits]. destruct (Z.ltb_spec j 10); [simpl; lia|].
  rewrite Nat2Z.inj_succ, Z.pow_succ_r in Hj by lia.
  rewrite Nat2Z.inj_succ, Z.pow_succ_r by lia.
  assert (j / 10 < 10 ^ Z.of_nat (count_digits fuel (j / 10))).
  { apply IH. split; [apply Z.div_pos; lia|]. apply Z.div_lt_upper_bound; lia. }
  pose proof (Z.mul_succ_div_gt j 10). lia.
Qed.

Lemma ndigits_enough j : 0 <= j -> j < 10 ^ Z.of_nat (ndigits j).
Proof.
  intros Hj. apply count_digits_enough. split; [done|].
  destruct (Z.eq_dec j 0) as [->|]; [simpl; lia|].
  rewrite Nat2Z.inj_succ, Z2Nat.id by apply Z.log2_nonneg.
  pose proof (Z.log2_spec j ltac:(lia)) as [_ H].
  eapply Z.lt_le_trans; [exact H|].
  apply Z.pow_le_mono_l. pose proof (Z.log2_nonneg j). lia.
Qed.

(** Zero-padding to [w] digits a number that fits gives its [w] low
    digits. *)
Lemma format_d_fits w j : (1 <= w)%nat -> 0 <= j < 10 ^ Z.of_nat w ->
  format_d true w j = low_digits w j.
Proof.
  intros Hw Hj. unfold format_d.
  destruct (Z.ltb_spec j 0); [lia|]. rewrite Z.abs_eq by lia. simpl.
  rewrite low_digits_length, Nat.sub_0_r. symmetry. apply low_digits_pad.
  - split; [lia|]. by apply ndigits_enough.
  - by apply count_digits_le.
Qed.

Lemma int_digits s : s <> [] -> forallb is_digit s = true ->
  int (PyStr s) = Ok (decimal_value s).
Proof. intros Hne Hs. simpl. destruct s; [done|]. by rewrite Hs. Qed.

(** ** template_regex *)

Lemma render_template_length prefix digits digits' exten :
  length digits' = length digits ->
  render_template prefix digits' exten = render_template prefix digits exten.
Proof.
  intros H. unfold render_template. do 2 f_equal.
  revert digits' H. induction digits as [|c d IH]; intros [|c' d']; simpl; try done.
  intros [= H]. f_equal. auto.
Qed.

Lemma render_template_replicate prefix digits exten :
  render_template prefix digits exten =
  prefix ++ replicate (length digits) "#"%char ++ exten.
Proof.
  unfold render_template. do 2 f_equal. induction digits; simpl; congruence.
Qed.

(** No pattern matches: the locals keep their initial values. *)
Lemma template_regex_None filename :
  first_match 0 patterns (rev filename) = None ->
  template_locals filename = Ok (None, PyInt 0, None) /\
  template_regex filename = Ok (None, 0).
Proof.
  intros H. unfold template_regex, template_locals.
  rewrite loop_first_match, H. done.
Qed.

(** A pattern matches: the result is built from the locals it binds. *)
Lemma template_regex_matched filename j p gs :
  first_match 0 patterns (rev filename) = Some (j, p, gs) ->
  exists prefix digits exten,
    assign j gs = Ok (prefix, digits, exten) /\
    digits <> [] /\ forallb is_digit digits = true /\
    template_locals filename =
      Ok (Some (render_template prefix digits exten), PyStr digits, Some (prefix, exten)) /\
    template_regex filename =
      Ok (Some (render_template prefix digits exten), decimal_value digits).
Proof.
  intros H. destruct (matched_shape _ _ _ _ H) as (prefix & digits & exten & Ha & Hne & Hd & _).
  exists prefix, digits, exten. split_and!; try done.
  - unfold template_locals. rewrite loop_first_match, H. unfold bound. by rewrite Ha.
  - unfold template_regex, template_locals. rewrite loop_first_match, H.
    unfold bound. rewrite Ha. cbn [mbind outcome_bind].
    by rewrite int_digits.
Qed.

(** [template_regex] never raises. *)
Lemma template_regex_total filename :
  exists template index, template_regex filename = Ok (template, index).
Proof.
  destruct (first_match 0 patterns (rev filename)) as [[[j p] gs]|] eqn:E.
  - destruct (template_regex_matched _ _ _ _ E) as (? & ? & ? & _ & _ & _ & _ & H). eauto.
  - destruct (template_regex_None _ E) as [_ H]. eauto.
Qed.

Lemma template_regex_inv filename template index :
  template_regex filename = Ok (Some template, index) ->
  exists j p gs prefix digits exten,
    first_match 0 patterns (rev filename) = Some (j, p, gs) /\
    assign j gs = Ok (prefix, digits, exten) /\
    digits <> [] /\ forallb is_digit digits = true /\
    template = render_template prefix digits exten /\
    index = decimal_value digits /\
    template_locals filename = Ok (Some template, PyStr digits, Some (prefix, exten)).
Proof.
  intros H. destruct (first_match 0 patterns (rev filename)) as [[[j p] gs]|] eqn:E.
  - destruct (template_regex_matched _ _ _ _ E)
      as (prefix & digits & exten & Ha & Hne & Hd & Hl & Ht).
    rewrite Ht in H. injection H as <- <-.
    exists j, p, gs, prefix, digits, exten. done.
  - destruct (template_regex_None _ E) as [_ Ht]. rewrite Ht in H. done.
Qed.

(** A literal of the pattern occurs in the text it has matched. *)
Lemma text_literal p c : forall gs,
  Lit c ∈ p -> groups_ok p gs -> c ∈ text p gs.
Proof.
  induction p as [|it p IH]; intros gs Hin Hg; [by apply not_elem_of_nil in Hin|].
  apply elem_of_cons in Hin as [<-|Hin].
  - simpl. left.
  - destruct it as [c'| |]; simpl in *.
    + right. by apply IH.
    + destruct gs as [|g gs]; [done|]. destruct Hg as (_ & _ & Hg).
      apply elem_of_app. right. by apply IH.
    + destruct gs as [|g gs]; [done|]. destruct Hg as (_ & Hg).
      apply elem_of_app. right. by apply IH.
Qed.

(** Every pattern needs a dot. *)
Lemma no_dot_no_match filename p :
  "."%char ∉ filename -> p ∈ patterns -> re_match p (rev filename) = None.
Proof.
  intros Hdot Hp. destruct (re_match p (rev filename)) as [gs|] eqn:E; [|done].
  exfalso. apply Hdot. apply re_match_sound in E as (Hg & rest & E).
  assert (Hl : Lit "." ∈ p).
  { unfold patterns in Hp.
    repeat (apply elem_of_cons in Hp as [->|Hp]; [by repeat constructor|]).
    by apply not_elem_of_nil in Hp. }
  pose proof (text_literal p _ gs Hl Hg) as Hin.
  apply elem_of_reverse. change (reverse filename) with (rev_append filename []).
  rewrite <- rev_alt, E. apply elem_of_app. by left.
Qed.

Lemma first_match_None cps : forall j r,
  (forall p, p ∈ cps -> re_match p r = None) -> first_match j cps r = None.
Proof.
  induction cps as [|cp cps IH]; intros j r H; simpl; [done|].
  rewrite (H cp) by left. apply IH. intros p Hp. apply H. by right.
Qed.

(** ** group_files_by_imageset *)

Lemma collect_spec filenames : forall acc,
  exists entries,
    collect filenames acc = Ok (acc ++ entries) /\
    Forall2 (fun f e => exists t, template_regex f = Ok t /\ e = entry_of f t)
      filenames entries.
Proof.
  induction filenames as [|f fs IH]; intros acc.
  - exists []. rewrite app_nil_r. split; [done|constructor].
  - destruct (template_regex_total f) as (t & i & Ht).
    destruct (IH (acc ++ [entry_of f (t, i)])) as (es & Hc & Hes).
    exists (entry_of f (t, i) :: es). split.
    + simpl. rewrite Ht. cbn [mbind outcome_bind]. rewrite Hc. by rewrite <- app_assoc.
    + constructor; [eauto|done].
Qed.

Lemma total_values_insert (m : gmap str (list (option Z))) key values :
  m !! key = None ->
  total_values (<[key := values]> m) = (length values + total_values m)%nat.
Proof.
  intros H. unfold total_values. rewrite map_fold_insert_L; [done| |done].
  intros. lia.
Qed.

Lemma total_values_append (m : gmap str (list (option Z))) key value :
  total_values (append_to m key value) = S (total_values m).
Proof.
  unfold append_to. destruct (m !! key) as [l|] eqn:E; simpl.
  - rewrite <- insert_delete_eq.
    rewrite total_values_insert by apply lookup_delete_eq.
    rewrite <- (insert_delete_id m key l) at 2 by done.
    rewrite total_values_insert by apply lookup_delete_eq.
    rewrite length_app. simpl. lia.
  - by rewrite total_values_insert.
Qed.

Lemma total_values_foldl template : forall m : gmap str (list (option Z)),
  total_values (foldl (fun matched t => append_to matched t.1 t.2) m template)
  = (total_values m + length template)%nat.
Proof.
  induction template as [|t ts IH]; intros m; simpl; [lia|].
  rewrite IH, total_values_append. lia.
Qed.

Lemma values_for_cons key t ts :
  values_for key (t :: ts) =
  if decide (t.1 = key) then t.2 :: values_for key ts else values_for key ts.
Proof. unfold values_for. rewrite filter_cons. by destruct (decide (t.1 = key)). Qed.

Lemma lookup_foldl key template : forall m : gmap str (list (option Z)),
  default [] (foldl (fun matched t => append_to matched t.1 t.2) m template !! key)
  = default [] (m !! key) ++ values_for key template.
Proof.
  induction template as [|t ts IH]; intros m; simpl.
  - by rewrite app_nil_r.
  - rewrite IH, values_for_cons. unfold append_to.
    destruct (decide (t.1 = key)) as [<-|Hne].
    + rewrite lookup_insert_eq. simpl. by rewrite <- app_assoc.
    + by rewrite lookup_insert_ne.
Qed.

Lemma lookup_foldl_None key template : forall m : gmap str (list (option Z)),
  foldl (fun matched t => append_to matched t.1 t.2) m template !! key = None <->
  m !! key = None /\ values_for key template = [].
Proof.
  induction template as [|t ts IH]; intros m; simpl.
  - tauto.
  - rewrite IH, values_for_cons. unfold append_to.
    destruct (decide (t.1 = key)) as [<-|Hne].
    + rewrite lookup_insert_eq. split; [by intros [? _]|by intros [_ ?]].
    + by rewrite lookup_insert_ne.
Qed.

(** ** find_matching_images *)

Lemma str_eqb_eq a : forall b, str_eqb a b = true <-> a = b.
Proof.
  induction a as [|x a IH]; intros [|y b]; simpl; try done.
  rewrite andb_true_iff, IH, Ascii.eqb_eq. split; [by intros [-> ->]|by intros [= -> ->]].
Qed.

Lemma mem_spec name files : mem name files = true <-> name ∈ files.
Proof.
  unfold mem. rewrite existsb_exists. split.
  - intros (x & Hx & ->%str_eqb_eq). by apply list_elem_of_In.
  - intros H. exists name. split; [by apply list_elem_of_In|by apply str_eqb_eq].
Qed.

Lemma mem_same name files files' :
  (forall x, x ∈ files <-> x ∈ files') -> mem name files = mem name files'.
Proof.
  intros H. apply eq_true_iff_eq. by rewrite !mem_spec.
Qed.

(** The loop looks at the listing through membership only. *)
Lemma scan_same template_str files files' directory js :
  (forall x, x ∈ files <-> x ∈ files') ->
  forall acc, scan template_str files directory js acc
            = scan template_str files' directory js acc.
Proof.
  intros H. induction js as [|j js IH]; intros acc; simpl; [done|].
  destruct (format_int template_str j) as [name|e]; simpl; [|done].
  rewrite (mem_same name files files' H).
  destruct (mem name files'); [apply IH|apply IH].
Qed.

(** The branch taken when there is no template. *)
Lemma find_matching_images_none image_name index fs log :
  template_regex (os_path_split image_name).2 = Ok (None, index) ->
  find_matching_images image_name fs log = (Ok [image_name], log).
Proof.
  unfold find_matching_images. destruct (os_path_split image_name) as [directory filename].
  simpl. intros H. unfold mbind, IO_bind, lift. by rewrite H.
Qed.

(** The branch taken when there is a template: one listing of the
    directory, then the loop. *)
Lemma find_matching_images_found image_name fs log directory filename
    template n pfx sfx width :
  os_path_split image_name = (directory, filename) ->
  template_regex filename = Ok (Some template, n) ->
  template <> [] ->
  index (split "#" template) 0 = Ok pfx ->
  index_last (split "#" template) = Ok sfx ->
  format_int (py "%%0%dd") (Z.of_nat (count "#" template)) = Ok width ->
  let directory := if str_eqb directory [] then py "." else directory in
  find_matching_images image_name fs log =
    (files_in_directory ← fs directory;
     js ← range0 (10 ^ Z.of_nat (count "#" template));
     scan (pfx ++ width ++ sfx) files_in_directory directory js [],
     log ++ [directory]).
Proof.
  intros Hs Ht Hne Hp Hx Hw. unfold find_matching_images. rewrite Hs.
  unfold mbind at 1, IO_bind at 1, lift at 1. rewrite Ht.
  destruct template as [|c template]; [done|]. cbn [truthy default from_option]. unfold id.
  unfold mbind at 1, IO_bind at 1, lift at 1. rewrite Hp.
  unfold mbind at 1, IO_bind at 1, lift at 1. rewrite Hx.
  unfold mbind at 1, IO_bind at 1, lift at 1. rewrite Hw.
  unfold mbind at 1, IO_bind at 1, os_listdir.
  destruct (fs (if str_eqb directory [] then py "." else directory)); [|done].
  unfold mbind at 1, IO_bind at 1, lift. cbn [mbind outcome_bind].
  by destruct (range0 (10 ^ Z.of_nat (count "#" (c :: template)))).
Qed.

(** *** Names without the placeholder and the percent characters *)

Lemma count_app c a b : count c (a ++ b) = (count c a + count c b)%nat.
Proof. unfold count. by rewrite filter_app, length_app. Qed.

Lemma count_absent c s : c ∉ s -> count c s = 0%nat.
Proof.
  unfold count. induction s as [|x s IH]; intros H; [done|].
  apply not_elem_of_cons in H as [Hx Hs]. rewrite filter_cons.
  destruct (decide (Ascii.eqb x c = true)) as [E%Ascii.eqb_eq|]; [congruence|auto].
Qed.

Lemma count_replicate c n : count c (replicate n c) = n.
Proof.
  unfold count. induction n as [|n IH]; [done|]. simpl. rewrite filter_cons.
  rewrite decide_True by apply Ascii.eqb_refl. simpl. by rewrite IH.
Qed.

Lemma split_nonempty c s : split c s <> [].
Proof.
  destruct s as [|x s]; simpl; [done|].
  destruct (Ascii.eqb x c); [done|]. by destruct (split c s).
Qed.

Lemma split_absent c s : c ∉ s -> split c s = [s].
Proof.
  induction s as [|x s IH]; intros H; [done|].
  apply not_elem_of_cons in H as [Hx Hs]. simpl.
  destruct (Ascii.eqb_spec x c) as [->|_]; [done|]. by rewrite IH.
Qed.

Lemma split_head c a b : c ∉ a -> split c (a ++ c :: b) = a :: split c b.
Proof.
  induction a as [|x a IH]; intros H; simpl.
  - by rewrite Ascii.eqb_refl.
  - apply not_elem_of_cons in H as [Hx Ha].
    destruct (Ascii.eqb_spec x c) as [->|_]; [done|]. by rewrite IH.
Qed.

Lemma split_template prefix exten n :
  "#"%char ∉ prefix -> "#"%char ∉ exten -> (1 <= n)%nat ->
  let template := prefix ++ replicate n "#"%char ++ exten in
  count "#" template = n /\
  index (split "#" template) 0 = Ok prefix /\
  index_last (split "#" template) = Ok exten.
Proof.
  intros Hp He Hn template. subst template. split_and!.
  - rewrite !count_app, count_replicate, !count_absent by done. lia.
  - destruct n as [|n]; [lia|]. simpl. by rewrite split_head.
  - destruct n as [|n]; [lia|]. cbn [replicate app]. rewrite split_head by done.
    unfold index_last. clear Hn Hp.
    assert (H : forall l : list str, l <> [] -> last (prefix :: l) = last l).
    { by intros [|??]. }
    rewrite H by apply split_nonempty. clear H.
    induction n as [|n IH]; simpl.
    + by rewrite split_absent.
    + destruct (split "#" (replicate n "#"%char ++ exten)) eqn:E; [|done].
      by apply split_nonempty in E.
Qed.

Lemma format_text a : "%"%char ∉ a ->
  forall used rest j,
    format_from Text used (a ++ rest) j = app a <$> format_from Text used rest j.
Proof.
  induction a as [|x a IH]; intros H used rest j.
  - simpl. by destruct (format_from Text used rest j).
  - apply not_elem_of_cons in H as [Hx Ha]. simpl.
    destruct (Ascii.eqb_spec x "%") as [->|_]; [done|].
    rewrite IH by done. by destruct (format_from Text used rest j).
Qed.

Lemma format_text_end a j : "%"%char ∉ a -> format_from Text true a j = Ok a.
Proof.
  intros H. rewrite <- (app_nil_r a) at 1. rewrite format_text by done.
  simpl. by rewrite app_nil_r.
Qed.

Lemma format_width W : forall zero w rest j,
  forallb is_digit W = true ->
  format_from (Width zero w) false (W ++ "d"%char :: rest) j =
  app (format_d zero
         (Z.to_nat (fold_left (fun acc c => 10 * acc + digit_value c) W (Z.of_nat w))) j)
    <$> format_from Text true rest j.
Proof.
  induction W as [|c W IH]; intros zero w rest j HW.
  - simpl. by rewrite Nat2Z.id.
  - simpl in HW. apply andb_prop in HW as [Hc HW].
    cbn [app format_from]. rewrite Hc, IH by done. cbn [fold_left].
    pose proof (is_digit_value c Hc).
    replace (Z.of_nat (10 * w + Z.to_nat (digit_value c)))
      with (10 * Z.of_nat w + digit_value c) by lia.
    done.
Qed.

Lemma format_flags W : forall rest j,
  forallb is_digit W = true ->
  format_from (Flags true) false (W ++ "d"%char :: rest) j =
  app (format_d true (Z.to_nat (decimal_value W)) j) <$> format_from Text true rest j.
Proof.
  induction W as [|c W IH]; intros rest j HW; [done|].
  simpl in HW. apply andb_prop in HW as [Hc HW].
  cbn [app format_from].
  destruct (Ascii.eqb_spec c "%") as [->|_]; [done|].
  destruct (Ascii.eqb_spec c "0") as [->|_].
  - by rewrite IH.
  - rewrite Hc, format_width by done.
    pose proof (is_digit_value c Hc).
    unfold decimal_value. cbn [fold_left]. rewrite Z2Nat.id by lia.
    by rewrite Z.mul_0_r, Z.add_0_l.
Qed.

(** The width written into the format string. *)
Lemma format_width_spec n :
  format_int (py "%%0%dd") (Z.of_nat n) =
  Ok (py "%0" ++ low_digits (ndigits (Z.of_nat n)) (Z.of_nat n) ++ py "d").
Proof.
  unfold format_int. cbn [py list_ascii_of_string format_from].
  rewrite !Ascii.eqb_refl.
  change (Ascii.eqb "0" "%") with false. change (Ascii.eqb "d" "%") with false.
  change (Ascii.eqb "d" "0") with false. change (is_digit "d") with false.
  cbn [fmap outcome_fmap]. unfold format_d.
  destruct (Z.ltb_spec (Z.of_nat n) 0); [lia|]. rewrite Z.abs_eq by lia.
  simpl. done.
Qed.

(** The format string built by [find_matching_images] renders the
    prefix, the index padded with zeros, and the suffix. *)
Lemma format_template_str prefix exten n j :
  "%"%char ∉ prefix -> "%"%char ∉ exten ->
  format_int
    (prefix ++ (py "%0" ++ low_digits (ndigits (Z.of_nat n)) (Z.of_nat n) ++ py "d") ++ exten) j
  = Ok (prefix ++ format_d true n j ++ exten).
Proof.
  intros Hp He. unfold format_int. rewrite format_text by done.
  cbn [py list_ascii_of_string app format_from].
  rewrite Ascii.eqb_refl. change (Ascii.eqb "0" "%") with false. rewrite Ascii.eqb_refl.
  rewrite <- app_assoc. cbn [app].
  rewrite format_flags by apply low_digits_all.
  rewrite format_text_end by done. cbn [fmap outcome_fmap].
  rewrite low_digits_value, Z.mod_small, Nat2Z.id; [done|].
  split; [lia|]. apply ndigits_enough. lia.
Qed.

Lemma scan_spec template_str files directory (name : Z -> str) js :
  (forall j, j ∈ js -> format_int template_str j = Ok (name j)) ->
  forall acc,
    scan template_str files directory js acc =
    Ok (acc ++ map (fun j => os_path_join directory (name j))
                (filter (fun j => name j ∈ files) js)).
Proof.
  induction js as [|j js IH]; intros H acc.
  - simpl. by rewrite app_nil_r.
  - cbn [scan]. rewrite (H j) by left. cbn [mbind outcome_bind].
    rewrite filter_cons.
    assert (Hjs : forall j, j ∈ js -> format_int template_str j = Ok (name j)).
    { intros j' Hj'. apply H. by right. }
    destruct (mem (name j) files) eqn:E.
    + apply mem_spec in E. rewrite decide_True by done.
      rewrite IH by done. simpl. by rewrite <- app_assoc.
    + rewrite decide_False; [by apply IH|].
      intros Hin%mem_spec. congruence.
Qed.

Lemma template_locals_inv filename template digits prefix exten :
  template_locals filename = Ok (Some template, PyStr digits, Some (prefix, exten)) ->
  template_regex filename = Ok (Some template, decimal_value digits) /\
  template = render_template prefix digits exten /\
  digits <> [] /\
  exists before, filename = before ++ prefix ++ digits ++ exten.
Proof.
  intros H. unfold template_locals in H. rewrite loop_first_match in H.
  destruct (first_match 0 patterns (rev filename)) as [[[j p] gs]|] eqn:E; [|done].
  destruct (template_regex_matched _ _ _ _ E)
    as (prefix' & digits' & exten' & Ha & Hne & Hd & _ & Hr).
  unfold bound in H. rewrite Ha in H. injection H as <- <- <- <-.
  split; [done|]. split; [done|]. split; [done|].
  destruct (matched_shape _ _ _ _ E) as (prefix2 & digits2 & exten2 & Ha2 & _ & _ & Ht & _).
  rewrite Ha in Ha2. injection Ha2 as <- <- <-.
  destruct (first_match_Some _ _ _ _ _ _ E) as [Hm _].
  apply re_match_sound in Hm as (_ & rest & Hrest).
  exists (rev rest).
  rewrite <- (rev_involutive filename), Hrest, rev_app_distr, Ht. by rewrite rev_involutive.
Qed.

(** For a file name with neither ["#"] nor ["%"], the directory is listed
    once, and the result follows the outcome of [range]: its exception,
    or the list of the listed names among the renderings of the
    template, joined to the directory, in the order of the indices. *)
Lemma find_matching_images_spec image_name fs log directory filename
    template digits prefix exten files :
  os_path_split image_name = (directory, filename) ->
  template_locals filename = Ok (Some template, PyStr digits, Some (prefix, exten)) ->
  "#"%char ∉ filename -> "%"%char ∉ filename ->
  let directory := if str_eqb directory [] then py "." else directory in
  let name j := prefix ++ format_d true (length digits) j ++ exten in
  fs directory = Ok files ->
  find_matching_images image_name fs log =
    (js ← range0 (10 ^ Z.of_nat (length digits));
     Ok (map (fun j => os_path_join directory (name j))
           (filter (fun j => name j ∈ files) js)),
     log ++ [directory]).
Proof.
  intros Hs Hl Hhash Hpct directory' name Hfs.
  destruct (template_locals_inv _ _ _ _ _ Hl) as (Hr & -> & Hne & before & Hf).
  rewrite render_template_replicate in *.
  assert (Hlen : (1 <= length digits)%nat) by (destruct digits; [done|simpl; lia]).
  assert (Hparts : forall c : ascii, (c ∉ filename) -> (c ∉ prefix) /\ (c ∉ exten)).
  { intros c Hc. rewrite Hf in Hc. rewrite !not_elem_of_app in Hc. tauto. }
  destruct (Hparts _ Hhash) as [Hp1 He1]. destruct (Hparts _ Hpct) as [Hp2 He2].
  destruct (split_template prefix exten (length digits) Hp1 He1 Hlen) as (Hc & Hpfx & Hsfx).
  set (width := py "%0" ++ low_digits (ndigits (Z.of_nat (length digits)))
                             (Z.of_nat (length digits)) ++ py "d").
  rewrite (find_matching_images_found image_name fs log directory filename _ _
             prefix exten width Hs Hr); try done.
  - rewrite Hc. fold directory'. rewrite Hfs. cbn [mbind outcome_bind]. f_equal.
    destruct (range0 (10 ^ Z.of_nat (length digits))) as [js|e]; [|done].
    cbn [mbind outcome_bind].
    rewrite (scan_spec _ _ _ name); [done|].
    intros j _. by apply format_template_str.
  - destruct digits; [done|]. by destruct prefix.
  - rewrite Hc. apply format_width_spec.
Qed.

(** The candidate indices are increasing, and there are as many as the
    bound of the range, so no more names than that are returned. *)
Lemma upto_length n : 0 <= n -> Z.of_nat (length (upto n)) = n.
Proof. intros H. unfold upto. rewrite length_map, length_seq. lia. Qed.

Lemma upto_lookup n i j : upto n !! i = Some j -> j = Z.of_nat i /\ 0 <= j < n.
Proof.
  unfold upto. rewrite list_lookup_fmap. intros H.
  destruct (seq 0 (Z.to_nat n) !! i) as [k|] eqn:E; [|done].
  injection H as <-. apply lookup_seq in E as [-> Hi]. lia.
Qed.

Lemma range0_Ok n js : range0 n = Ok js -> js = upto n /\ n <= sys_maxint.
Proof.
  unfold range0. destruct (Z.leb_spec n sys_maxint); [|done].
  by intros [= <-].
Qed.

Lemma matching_images_bound (name : Z -> str) (directory : str) (files : list str) n :
  0 <= n ->
  Z.of_nat (length (map (fun j => os_path_join directory (name j))
                      (filter (fun j => name j ∈ files) (upto n)))) <= n.
Proof.
  intros H. rewrite length_map.
  pose proof (length_filter (fun j => name j ∈ files) (upto n)).
  pose proof (upto_length n H). lia.
Qed.

(** The result when the first matching pattern and its groups are
    known. *)
Lemma template_regex_of_match filename j p gs prefix digits exten :
  first_match 0 patterns (rev filename) = Some (j, p, gs) ->
  assign j gs = Ok (prefix, digits, exten) ->
  template_locals filename =
    Ok (Some (render_template prefix digits exten), PyStr digits, Some (prefix, exten)) /\
  template_regex filename =
    Ok (Some (prefix ++ replicate (length digits) "#"%char ++ exten),
        decimal_value digits).
Proof.
  intros Hm Ha.
  destruct (template_regex_matched _ _ _ _ Hm) as (p' & d' & e' & Ha' & _ & _ & Hl & Hr).
  rewrite Ha in Ha'. injection Ha' as <- <- <-.
  by rewrite <- render_template_replicate.
Qed.

(** ** The properties of the specification: template inference *)

(** C2: [template_regex "foo_0001.cbf"] gives the template with prefix
    ["foo_"], four placeholders and suffix [".cbf"], that is
    ["foo_####.cbf"], and the index 1; [template_regex "image.0001"] gives
    prefix ["image."], four placeholders, an empty suffix, that is
    ["image.####"], and the index 1. *)
Theorem worked_examples :
  (template_locals (py "foo_0001.cbf") =
     Ok (Some (py "foo_####.cbf"), PyStr (py "0001"), Some (py "foo_", py ".cbf")) /\
   render_template (py "foo_") (py "0001") (py ".cbf") = py "foo_####.cbf" /\
   count "#" (py "foo_####.cbf") = 4%nat /\
   template_regex (py "foo_0001.cbf") = Ok (Some (py "foo_####.cbf"), 1)) /\
  (template_locals (py "image.0001") =
     Ok (Some (py "image.####"), PyStr (py "0001"), Some (py "image.", py "")) /\
   render_template (py "image.") (py "0001") (py "") = py "image.####" /\
   count "#" (py "image.####") = 4%nat /\
   template_regex (py "image.0001") = Ok (Some (py "image.####"), 1)).
Proof. vm_compute. repeat split. Qed.

(** C3: there are exactly three patterns, tried in the order bare
    numeric suffix, underscore-delimited suffix, generic suffix, and what
    [template_regex] returns is what the first one that matches gives.
    When the first matches the reversed name with the digits [d] and the
    rest [g], the result is the template and the index built from [d]
    and [g] with the joiner ["."], whether or not the other two match.
    When the first fails and the second matches with the groups [e], [d]
    and [g], the result is built from them with the joiner ["_"],
    whether or not the third matches.  The groups of the third are used
    only when the first two fail, and when all three fail the result is
    [(None, 0)]. *)
Theorem first_heuristic_wins (filename : str) :
  patterns = [bare_numeric; underscore_delimited; generic_suffix] /\
  (forall gs, re_match bare_numeric (rev filename) = Some gs ->
     exists d g, gs = [d; g] /\
       template_regex filename =
         Ok (Some (rev g ++ py "." ++ replicate (length d) "#"%char),
             decimal_value (rev d))) /\
  (forall gs, re_match bare_numeric (rev filename) = None ->
     re_match underscore_delimited (rev filename) = Some gs ->
     exists e d g, gs = [e; d; g] /\
       template_regex filename =
         Ok (Some (rev g ++ py "_" ++ replicate (length d) "#"%char ++ py "." ++ rev e),
             decimal_value (rev d))) /\
  (forall gs, re_match bare_numeric (rev filename) = None ->
     re_match underscore_delimited (rev filename) = None ->
     re_match generic_suffix (rev filename) = Some gs ->
     exists e d g, gs = [e; d; g] /\
       template_regex filename =
         Ok (Some (rev g ++ replicate (length d) "#"%char ++ py "." ++ rev e),
             decimal_value (rev d))) /\
  (re_match bare_numeric (rev filename) = None ->
   re_match underscore_delimited (rev filename) = None ->
   re_match generic_suffix (rev filename) = None ->
   template_regex filename = Ok (None, 0)).
Proof.
  split; [done|]. split_and!.
  - intros gs H.
    assert (Hm : first_match 0 patterns (rev filename) = Some (0%nat, bare_numeric, gs)).
    { unfold patterns. fold bare_numeric. cbn [first_match]. by rewrite H. }
    apply re_match_sound in H as [Hg _]. simpl in Hg.
    destruct gs as [|d [|g [|]]]; try (by intuition).
    exists d, g. split; [done|].
    destruct (template_regex_of_match _ _ _ _ (rev g ++ py ".") (rev d) (py "") Hm)
      as [_ Hr]; [done|].
    rewrite Hr, length_rev, app_nil_r. by rewrite <- app_assoc.
  - intros gs H1 H.
    assert (Hm : first_match 0 patterns (rev filename)
                 = Some (1%nat, underscore_delimited, gs)).
    { unfold patterns. fold bare_numeric underscore_delimited. cbn [first_match].
      by rewrite H1, H. }
    apply re_match_sound in H as [Hg _]. simpl in Hg.
    destruct gs as [|e [|d [|g [|]]]]; try (by intuition).
    exists e, d, g. split; [done|].
    destruct (template_regex_of_match _ _ _ _ (rev g ++ py "_") (rev d) (py "." ++ rev e) Hm)
      as [_ Hr]; [done|].
    rewrite Hr, length_rev. by rewrite <- app_assoc.
  - intros gs H1 H2 H.
    assert (Hm : first_match 0 patterns (rev filename)
                 = Some (2%nat, generic_suffix, gs)).
    { unfold patterns. fold bare_numeric underscore_delimited generic_suffix.
      cbn [first_match]. by rewrite H1, H2, H. }
    apply re_match_sound in H as [Hg _]. simpl in Hg.
    destruct gs as [|e [|d [|g [|]]]]; try (by intuition).
    exists e, d, g. split; [done|].
    destruct (template_regex_of_match _ _ _ _ (rev g ++ py "") (rev d) (py "." ++ rev e) Hm)
      as [_ Hr]; [done|].
    rewrite Hr, length_rev. by rewrite <- app_assoc.
  - intros H1 H2 H3. apply template_regex_None.
    unfold patterns. fold bare_numeric underscore_delimited generic_suffix.
    cbn [first_match]. by rewrite H1, H2, H3.
Qed.

Lemma first_heuristic_wins_witness :
  (exists d g, [py "200"; py "b.1_a"] = [d; g] /\
     template_regex (py "a_1.b.002") =
       Ok (Some (rev g ++ py "." ++ replicate (length d) "#"%char),
           decimal_value (rev d))) /\
  (exists e d g, [py "fbc"; py "1000"; py "oof"] = [e; d; g] /\
     template_regex (py "foo_0001.cbf") =
       Ok (Some (rev g ++ py "_" ++ replicate (length d) "#"%char ++ py "." ++ rev e),
           decimal_value (rev d))) /\
  (exists e d g, [py "y"; py "1"; py "x"] = [e; d; g] /\
     template_regex (py "x1.y") =
       Ok (Some (rev g ++ replicate (length d) "#"%char ++ py "." ++ rev e),
           decimal_value (rev d))) /\
  template_regex (py "README") = Ok (None, 0).
Proof.
  pose proof (first_heuristic_wins (py "a_1.b.002")) as (_ & H1 & _).
  pose proof (first_heuristic_wins (py "foo_0001.cbf")) as (_ & _ & H2 & _).
  pose proof (first_heuristic_wins (py "x1.y")) as (_ & _ & _ & H3 & _).
  pose proof (first_heuristic_wins (py "README")) as (_ & _ & _ & _ & H4).
  split; [|split; [|split]].
  - apply H1. reflexivity.
  - apply H2; reflexivity.
  - apply H3; reflexivity.
  - apply H4; reflexivity.
Defined.

(** C8: when no heuristic matches the file name (there is no dot in it,
    or no pattern finds its digits and separators), [template_regex]
    returns [(None, 0)]: it ends normally, and as a pure function of the
    file name it does no input or output. *)
Theorem no_match_returns_none (filename : str) :
  "."%char ∉ filename \/ (forall p, p ∈ patterns -> re_match p (rev filename) = None) ->
  template_regex filename = Ok (None, 0).
Proof.
  intros H. apply template_regex_None, first_match_None.
  destruct H as [H|H]; [|done]. intros p Hp. by apply no_dot_no_match.
Qed.

Lemma no_match_returns_none_witness :
  template_regex (py "README") = Ok (None, 0) /\
  template_regex (py "notes.txt") = Ok (None, 0).
Proof.
  split.
  - apply (no_match_returns_none (py "README")). left.
    intros H. repeat (apply elem_of_cons in H as [H|H]; [discriminate H|]).
    by apply not_elem_of_nil in H.
  - apply (no_match_returns_none (py "notes.txt")). right.
    intros p Hp. unfold patterns in Hp.
    repeat (apply elem_of_cons in Hp as [->|Hp]; [reflexivity|]).
    by apply not_elem_of_nil in Hp.
Defined.

(** C10: whenever [template_regex] returns a template, the template is a
    prefix, one placeholder for each digit of a run of digits of the file
    name, and a suffix; the file name has that prefix, run and suffix at
    its end (after at most what precedes its last newline); the run has
    at least one digit; and the index is the value of the run, so it lies
    between 0 and 10 to the number of digits. *)
Theorem template_invariant (filename template : str) (index : Z) :
  template_regex filename = Ok (Some template, index) ->
  exists before prefix digits exten,
    template_locals filename = Ok (Some template, PyStr digits, Some (prefix, exten)) /\
    filename = before ++ prefix ++ digits ++ exten /\
    forallb is_digit digits = true /\
    (1 <= length digits)%nat /\
    template = prefix ++ replicate (length digits) "#"%char ++ exten /\
    index = decimal_value digits /\
    0 <= index < 10 ^ Z.of_nat (length digits).
Proof.
  intros H.
  apply template_regex_inv in H
    as (j & p & gs & prefix & digits & exten & Hfm & Ha & Hne & Hd & -> & -> & Hl).
  destruct (matched_shape _ _ _ _ Hfm) as (prefix' & digits' & exten' & Ha' & _ & _ & Ht & _).
  rewrite Ha in Ha'. injection Ha' as <- <- <-.
  destruct (first_match_Some _ _ _ _ _ _ Hfm) as [Hm _].
  apply re_match_sound in Hm as (_ & rest & E).
  exists (rev rest), prefix, digits, exten. split_and!; try done.
  - rewrite <- (rev_involutive filename), E, rev_app_distr, Ht. by rewrite rev_involutive.
  - destruct digits; [done|simpl; lia].
  - apply render_template_replicate.
  - by apply decimal_value_bound.
  - by apply decimal_value_bound.
Qed.

Lemma template_invariant_witness :
  exists before prefix digits exten,
    template_locals (py "foo_0001.cbf") =
      Ok (Some (py "foo_####.cbf"), PyStr digits, Some (prefix, exten)) /\
    py "foo_0001.cbf" = before ++ prefix ++ digits ++ exten /\
    forallb is_digit digits = true /\
    (1 <= length digits)%nat /\
    py "foo_####.cbf" = prefix ++ replicate (length digits) "#"%char ++ exten /\
    1 = decimal_value digits /\
    0 <= 1 < 10 ^ Z.of_nat (length digits).
Proof. apply (template_invariant (py "foo_0001.cbf")). reflexivity. Defined.

(** C4: round trip.  When [template_regex] returns the template [t]
    built from the locals [prefix], [digits] and [exten], then for every
    [i'] from 0 up to 10 to the number of digits (excluded), the name
    [prefix], then [i'] padded with zeros to that number of digits, then
    [exten], is one on which [template_regex] returns [t] and [i']. *)
Theorem round_trip (filename template : str) (index : Z) :
  template_regex filename = Ok (Some template, index) ->
  exists prefix digits exten,
    template_locals filename = Ok (Some template, PyStr digits, Some (prefix, exten)) /\
    template = render_template prefix digits exten /\
    forall i', 0 <= i' < 10 ^ Z.of_nat (length digits) ->
      template_regex (prefix ++ format_d true (length digits) i' ++ exten)
      = Ok (Some template, i').
Proof.
  intros H.
  apply template_regex_inv in H
    as (j & p & gs & prefix & digits & exten & Hfm & Ha & Hne & Hd & -> & -> & Hl).
  exists prefix, digits, exten. split; [done|]. split; [done|]. intros i' Hi'.
  assert (Hlen : (1 <= length digits)%nat) by (destruct digits; [done|simpl; lia]).
  rewrite format_d_fits by done.
  destruct (matched_shape _ _ _ _ Hfm) as (prefix' & digits' & exten' & Ha' & _ & _ & _ & Hrep).
  rewrite Ha in Ha'. injection Ha' as <- <- <-.
  destruct (Hrep (low_digits (length digits) i'))
    as (gs' & Hsim & Ht' & Ha'); [apply low_digits_all|apply low_digits_length|].
  pose proof (first_match_text _ _ _ _ _ _ gs' patterns_plain Hfm Hsim) as Hfm'.
  rewrite Ht' in Hfm'.
  destruct (template_regex_matched _ _ _ _ Hfm')
    as (prefix2 & digits2 & exten2 & Ha2 & _ & _ & _ & Hr).
  rewrite Ha' in Ha2. injection Ha2 as <- <- <-.
  rewrite Hr, low_digits_value, Z.mod_small by done.
  by rewrite (render_template_length prefix digits) by apply low_digits_length.
Qed.

Lemma round_trip_witness :
  exists prefix digits exten,
    template_locals (py "foo_0001.cbf") =
      Ok (Some (py "foo_####.cbf"), PyStr digits, Some (prefix, exten)) /\
    py "foo_####.cbf" = render_template prefix digits exten /\
    forall i', 0 <= i' < 10 ^ Z.of_nat (length digits) ->
      template_regex (prefix ++ format_d true (length digits) i' ++ exten)
      = Ok (Some (py "foo_####.cbf"), i').
Proof. apply (round_trip (py "foo_0001.cbf") (py "foo_####.cbf") 1). reflexivity. Defined.

(** C1 (falsified by the code): with two runs of digits that both
    satisfy the separators of the underscore-delimited pattern, the run
    bound is the one next to the dot nearest the start of the file name.
    In ["a_01.b_02.c"] the placeholders replace ["01"], not ["02"]. *)
Theorem first_dot_is_bound :
  re_match underscore_delimited (rev (py "a_01.b_02.c"))
    = Some [py "c.20_b"; py "10"; py "a"] /\
  template_locals (py "a_01.b_02.c") =
    Ok (Some (py "a_##.b_02.c"), PyStr (py "01"), Some (py "a_", py ".b_02.c")) /\
  template_regex (py "a_01.b_02.c") = Ok (Some (py "a_##.b_02.c"), 1) /\
  template_regex (py "a_01.b_02.c") <> Ok (Some (py "a_01.b_##.c"), 2).
Proof. vm_compute. repeat split. discriminate. Qed.

(** ** The properties of the specification: grouping *)

(** C5: for every list of file names, [group_files_by_imageset] returns
    a dictionary; each file name gives one entry, its key and its value;
    the list found under a key holds the values of the entries with that
    key, in the order of the input, neither sorted nor deduplicated; a
    key with no entry is absent; and the lengths of all the lists add up
    to the length of the input. *)
Theorem grouping_complete (filenames : list str) :
  exists template matched,
    collect filenames [] = Ok template /\
    Forall2 (fun f e => exists t, template_regex f = Ok t /\ e = entry_of f t)
      filenames template /\
    group_files_by_imageset filenames = Ok matched /\
    total_values matched = length filenames /\
    forall key,
      default [] (matched !! key) = values_for key template /\
      (matched !! key = None <-> values_for key template = []).
Proof.
  destruct (collect_spec filenames []) as (template & Hc & Hes).
  exists template, (foldl (fun matched t => append_to matched t.1 t.2) ∅ template).
  split_and!; try done.
  - unfold group_files_by_imageset. by rewrite Hc.
  - rewrite total_values_foldl. apply Forall2_length in Hes.
    unfold total_values. rewrite map_fold_empty. lia.
  - intros key. split.
    + by rewrite lookup_foldl, lookup_empty.
    + rewrite lookup_foldl_None, lookup_empty. tauto.
Qed.

(** ** The properties of the specification: matching images *)

(** C9: when [template_regex] finds no template in the base name of a
    path, [find_matching_images] returns the list of that one path,
    unchanged, and lists no directory (the log of listings is as
    before); so it does for ["README"], whatever the file system. *)
Theorem no_pattern_passthrough (image_name : str) (fs : filesystem) (log : list str) :
  (forall n, template_regex (os_path_split image_name).2 = Ok (None, n) ->
     find_matching_images image_name fs log = (Ok [image_name], log)) /\
  find_matching_images (py "README") fs log = (Ok [py "README"], log).
Proof.
  split.
  - intros n. apply find_matching_images_none.
  - by apply (find_matching_images_none _ 0).
Qed.

Lemma no_pattern_passthrough_witness :
  find_matching_images (py "data/notes.txt") (fun _ => Raise OSError) []
  = (Ok [py "data/notes.txt"], []).
Proof.
  apply (proj1 (no_pattern_passthrough (py "data/notes.txt") (fun _ => Raise OSError) []) 0).
  reflexivity.
Defined.

(** C7 as stated fails: the names returned for ["a_001.img"] are joined
    to the directory ["."], so they are not the bare names. *)
Lemma gap_skipping_bare_names_fails :
  (find_matching_images (py "a_001.img")
     (one_directory (py ".") [py "a_001.img"; py "a_002.img"; py "a_004.img"]) []).1
  <> Ok [py "a_001.img"; py "a_002.img"; py "a_004.img"].
Proof. vm_compute. discriminate. Qed.

(** C7, amended: when the listing of the directory ["."] holds exactly
    ["a_001.img"], ["a_002.img"] and ["a_004.img"], in any order,
    [find_matching_images "a_001.img"] lists ["."] once and returns
    ["./a_001.img"], ["./a_002.img"], ["./a_004.img"] in that order; the
    missing index 3 is skipped. *)
Theorem gap_skipping (fs : filesystem) (entries : list str) (log : list str) :
  fs (py ".") = Ok entries ->
  (forall name, name ∈ entries <->
     name ∈ [py "a_001.img"; py "a_002.img"; py "a_004.img"]) ->
  find_matching_images (py "a_001.img") fs log =
    (Ok [py "./a_001.img"; py "./a_002.img"; py "./a_004.img"], log ++ [py "."]).
Proof.
  intros Hfs Hentries.
  rewrite (find_matching_images_found (py "a_001.img") fs log [] (py "a_001.img")
             (py "a_###.img") 1 (py "a_") (py ".img") (py "%03d"))
    by (vm_compute; done).
  change (if str_eqb [] [] then py "." else []) with (py ".").
  rewrite Hfs. cbn [mbind outcome_bind]. f_equal.
  assert (Hr : range0 (10 ^ Z.of_nat (count "#" (py "a_###.img"))) = Ok (upto 1000))
    by reflexivity.
  rewrite Hr. cbn [mbind outcome_bind].
  rewrite (scan_same _ _ _ _ _ Hentries).
  vm_compute. reflexivity.
Qed.

Lemma gap_skipping_witness :
  find_matching_images (py "a_001.img")
    (one_directory (py ".") [py "a_004.img"; py "a_001.img"; py "a_002.img"]) []
  = (Ok [py "./a_001.img"; py "./a_002.img"; py "./a_004.img"], [] ++ [py "."]).
Proof.
  apply (gap_skipping _ [py "a_004.img"; py "a_001.img"; py "a_002.img"]).
  - reflexivity.
  - intros name. rewrite !elem_of_cons. tauto.
Defined.

(** C6 (falsified by the code): a ["#"] in the file name is counted as a
    placeholder and cuts the prefix.  For ["a#b_1.img"] the template has
    prefix ["a#b_"], one digit and suffix [".img"], yet the names looked
    for are ["a00.img"] to ["a99.img"]: with ["a#b_1.img"] and
    ["a00.img"] in the directory, the first, which is the template at
    index 1, is left out, and the second, which no index yields, is
    returned. *)
Theorem hash_in_name_breaks_matching :
  template_locals (py "a#b_1.img") =
    Ok (Some (py "a#b_#.img"), PyStr (py "1"), Some (py "a#b_", py ".img")) /\
  py "a#b_" ++ format_d true 1 1 ++ py ".img" = py "a#b_1.img" /\
  find_matching_images (py "a#b_1.img")
    (one_directory (py ".") [py "a#b_1.img"; py "a00.img"]) []
  = (Ok [py "./a00.img"], [py "."]).
Proof. vm_compute. repeat split. Qed.

(** * Further properties of the code *)

(** ** More facts about the matcher *)

(** A greedy group fails only if the rest fails after every run it can
    take. *)
Lemma star_None {R} ok (k : str -> str -> option R) s : forall acc,
  (forall a b, s = a ++ b -> forallb ok a = true -> k (acc ++ a) b = None) ->
  star ok k acc s = None.
Proof.
  induction s as [|c s IH]; intros acc H; simpl.
  - specialize (H [] [] eq_refl eq_refl). by rewrite app_nil_r in H.
  - assert (H0 : k acc (c :: s) = None).
    { specialize (H [] (c :: s) eq_refl eq_refl). by rewrite app_nil_r in H. }
    destruct (ok c) eqn:Hc; [|done].
    rewrite IH; [done|]. intros a b -> Ha. rewrite <- app_assoc.
    apply (H (c :: a) b); [done|]. simpl. by rewrite Hc.
Qed.

(** A greedy group takes the run [a] when the rest matches after it and
    after no longer run. *)
Lemma star_complete {R} ok (k : str -> str -> option R) a : forall acc b r,
  forallb ok a = true ->
  k (acc ++ a) b = Some r ->
  (forall a' b', a ++ b = a' ++ b' -> forallb ok a' = true ->
     (length a < length a')%nat -> k (acc ++ a') b' = None) ->
  star ok k acc (a ++ b) = Some r.
Proof.
  induction a as [|x a IH]; intros acc b r Ha Hk Hmax.
  - rewrite app_nil_r in Hk. simpl. destruct b as [|c b]; [done|]. simpl.
    destruct (ok c) eqn:Hc; [|done].
    rewrite star_None; [done|]. intros a2 b2 -> Ha2. rewrite <- app_assoc.
    apply (Hmax (c :: a2) b2); [done| |simpl; lia]. simpl. by rewrite Hc.
  - simpl in Ha. apply andb_prop in Ha as [Hx Ha]. simpl. rewrite Hx.
    rewrite (IH (acc ++ [x]) b r); [done|done| |].
    + by rewrite <- app_assoc.
    + intros a' b' E Ha' Hl. rewrite <- app_assoc.
      apply (Hmax (x :: a') b'); [simpl; by rewrite E| |simpl; lia].
      simpl. by rewrite Hx.
Qed.

Lemma no_longer_run (ok : ascii -> bool) (a b a' b' : str) :
  stops ok b -> a ++ b = a' ++ b' -> forallb ok a' = true ->
  (length a < length a')%nat -> False.
Proof.
  revert a'. induction a as [|x a IH]; intros a' Hb E Ha' Hl.
  - destruct a' as [|c a']; [simpl in Hl; lia|]. simpl in *. subst b.
    apply andb_prop in Ha' as [Hc _]. simpl in Hb. congruence.
  - destruct a' as [|c a']; [simpl in Hl; lia|]. simpl in *.
    injection E as -> E. apply andb_prop in Ha' as [_ Ha'].
    apply (IH a'); [done|done|done|lia].
Qed.

Lemma re_match_digits p d rest gs :
  d <> [] -> forallb is_digit d = true -> stops is_digit rest ->
  re_match p rest = Some gs ->
  re_match (Digits1 :: p) (d ++ rest) = Some (d :: gs).
Proof.
  intros Hne Hd Hstop Hp. destruct d as [|x d]; [done|].
  simpl in Hd. apply andb_prop in Hd as [Hx Hd]. simpl. rewrite Hx.
  apply star_complete; [done|by rewrite Hp|].
  intros a' b' E Ha' Hl. exfalso. by apply (no_longer_run is_digit d rest a' b').
Qed.

Lemma re_match_any_last s :
  forallb not_newline s = true -> re_match [AnyStar] s = Some [s].
Proof.
  intros Hs. simpl. rewrite star_greedy_total by (intros; simpl; eauto).
  simpl. by rewrite take_while_id.
Qed.

Lemma re_match_any_first q a b gs :
  forallb not_newline a = true ->
  re_match q b = Some gs ->
  (forall a' b', a ++ b = a' ++ b' -> forallb not_newline a' = true ->
     (length a < length a')%nat -> re_match q b' = None) ->
  re_match (AnyStar :: q) (a ++ b) = Some (a :: gs).
Proof.
  intros Ha Hq Hmax. simpl. apply star_complete; [done|by rewrite Hq|].
  intros a' b' E Ha' Hl. by rewrite (Hmax a' b').
Qed.

Lemma re_match_lit_absent c q s : c ∉ s -> re_match (Lit c :: q) s = None.
Proof.
  intros H. destruct s as [|x s]; [done|]. simpl.
  apply not_elem_of_cons in H as [Hx _].
  destruct (Ascii.eqb_spec x c) as [->|]; done.
Qed.

(** A split of [a ++ b] after more than [a] leaves a part of [b]. *)
Lemma longer_split (a b a' b' : str) :
  a ++ b = a' ++ b' -> (length a < length a')%nat ->
  exists x, x <> [] /\ b = x ++ b'.
Proof.
  revert a'. induction a as [|c a IH]; intros a' E Hl.
  - simpl in E. exists a'. split; [|done]. destruct a'; [simpl in Hl; lia|done].
  - destruct a' as [|c' a']; [simpl in Hl; lia|]. simpl in *.
    injection E as _ E. apply (IH a'); [done|lia].
Qed.

Lemma first_match_newline cps t : Forall plain cps ->
  forall j x, first_match j cps (x ++ newline :: t) = first_match j cps x.
Proof.
  induction 1 as [|cp cps [Hcp _] _ IH]; intros j x; simpl; [done|].
  rewrite re_match_newline by done. destruct (re_match cp x); [done|apply IH].
Qed.

(** ** template_regex *)

(** X1: [template_regex] raises no exception, whatever the string: the
    indices into the groups and the joiners are in range and [int] is
    given a non-empty string of digits, or the integer 0. *)
Theorem template_regex_never_raises (filename : str) :
  exists template index,
    template_regex filename = Ok (template, index) /\
    (template = None -> index = 0).
Proof.
  destruct (first_match 0 patterns (rev filename)) as [[[j p] gs]|] eqn:E.
  - destruct (template_regex_matched _ _ _ _ E) as (? & ? & ? & _ & _ & _ & _ & H).
    eexists _, _. split; [exact H|done].
  - destruct (template_regex_None _ E) as [_ H]. eauto.
Qed.

(** X2: what precedes the last newline of a file name is ignored: the
    result, template and index, is that of the text after it. *)
Theorem text_before_newline_ignored (a b : str) :
  template_locals (a ++ newline :: b) = template_locals b /\
  template_regex (a ++ newline :: b) = template_regex b.
Proof.
  assert (H : template_locals (a ++ newline :: b) = template_locals b).
  { unfold template_locals. rewrite !loop_first_match.
    rewrite rev_app_distr. cbn [rev]. rewrite <- app_assoc. cbn [app].
    by rewrite first_match_newline by apply patterns_plain. }
  split; [done|]. unfold template_regex. by rewrite H.
Qed.

Lemma elem_of_rev (c : ascii) (s : str) : c ∈ rev s <-> c ∈ s.
Proof. rewrite rev_alt. apply elem_of_reverse. Qed.

Lemma not_newline_all (s : str) : newline ∉ s -> forallb not_newline s = true.
Proof.
  induction s as [|c s IH]; intros H; [done|].
  apply not_elem_of_cons in H as [Hc Hs]. simpl. rewrite IH by done.
  unfold not_newline. destruct (Ascii.eqb_spec c "010"); [by destruct Hc|done].
Qed.

Lemma not_in_digits (c : ascii) (d : str) :
  is_digit c = false -> forallb is_digit d = true -> c ∉ d.
Proof.
  intros Hc Hd Hin. rewrite forallb_forall in Hd.
  apply list_elem_of_In in Hin. apply Hd in Hin. congruence.
Qed.

Lemma stops_rev (ok : ascii -> bool) (s : str) :
  (forall c, last s = Some c -> ok c = false) -> stops ok (rev s).
Proof.
  intros H. destruct s as [|x s] using rev_ind; [done|].
  rewrite rev_unit. simpl. apply H. apply last_snoc.
Qed.

(** X3: bare numeric suffix.  A name that ends with a dot and one or
    more digits, with no newline before them, has the digits as its
    index and everything up to the dot as its prefix, whatever dots and
    digits come earlier. *)
Theorem bare_numeric_suffix (base digits : str) :
  newline ∉ base -> digits <> [] -> forallb is_digit digits = true ->
  template_regex (base ++ py "." ++ digits) =
    Ok (Some (base ++ py "." ++ replicate (length digits) "#"%char),
        decimal_value digits).
Proof.
  intros Hb Hne Hd.
  assert (Hm : first_match 0 patterns (rev (base ++ py "." ++ digits))
               = Some (0%nat, bare_numeric, [rev digits; rev base])).
  { rewrite !rev_app_distr. cbn [py list_ascii_of_string rev app]. rewrite <- app_assoc.
    cbn [app]. unfold patterns. cbn [first_match]. fold bare_numeric.
    unfold bare_numeric.
    rewrite (re_match_digits _ (rev digits) _ [rev base]); [done| | |done|].
    - by apply rev_nonempty.
    - by rewrite forallb_rev.
    - cbn [re_match]. rewrite Ascii.eqb_refl. apply re_match_any_last.
      apply not_newline_all. by rewrite elem_of_rev. }
  destruct (template_regex_of_match _ _ _ _ (base ++ py ".") digits (py "") Hm) as [_ H].
  { unfold assign. rev_norm. }
  rewrite H. by rewrite app_nil_r, <- app_assoc.
Qed.

Lemma bare_numeric_suffix_witness :
  template_regex (py "scan_12.5deg" ++ py "." ++ py "0042") =
    Ok (Some (py "scan_12.5deg" ++ py "." ++ replicate (length (py "0042")) "#"%char),
        decimal_value (py "0042")).
Proof.
  apply bare_numeric_suffix.
  - intros H. repeat (apply elem_of_cons in H as [H|H]; [discriminate H|]).
    by apply not_elem_of_nil in H.
  - discriminate.
  - reflexivity.
Defined.

Lemma bare_numeric_fails (e rest : str) :
  stops is_digit e -> re_match bare_numeric (e ++ "."%char :: rest) = None.
Proof.
  intros H. destruct e as [|c e]; [done|]. simpl in *. by rewrite H.
Qed.

(** After the dot that is bound there is no other dot, so the leading
    group can take no more. *)
Lemma leading_group_maximal q (e tail a' b' : str) :
  "."%char ∉ tail ->
  e ++ "."%char :: tail = a' ++ b' -> (length e < length a')%nat ->
  re_match (Lit "." :: q) b' = None.
Proof.
  intros Hdot E Hl. apply longer_split in E as (x & Hx & E); [|done].
  apply re_match_lit_absent. destruct x as [|c x]; [done|].
  injection E as _ E. rewrite E in Hdot.
  by apply not_elem_of_app in Hdot as [_ Hdot].
Qed.

(** X4: underscore-delimited suffix.  For a name made of a stem without
    dot, an underscore, one or more digits, a dot and an extension that
    does not end with a digit (no newline anywhere), the digits are the
    index, the prefix is the stem with the underscore and the suffix is
    the dot with the extension. *)
Theorem underscore_suffix (stem digits ext : str) :
  "."%char ∉ stem -> newline ∉ stem ->
  digits <> [] -> forallb is_digit digits = true ->
  newline ∉ ext -> (forall c, last ext = Some c -> is_digit c = false) ->
  template_regex (stem ++ py "_" ++ digits ++ py "." ++ ext) =
    Ok (Some (stem ++ py "_" ++ replicate (length digits) "#"%char ++ py "." ++ ext),
        decimal_value digits).
Proof.
  intros Hdot Hnl Hne Hd Henl Hlast.
  assert (Hm : first_match 0 patterns (rev (stem ++ py "_" ++ digits ++ py "." ++ ext))
               = Some (1%nat, underscore_delimited, [rev ext; rev digits; rev stem])).
  { rewrite !rev_app_distr. cbn [py list_ascii_of_string rev app].
    rewrite <- !app_assoc. cbn [app]. unfold patterns. cbn [first_match].
    fold bare_numeric. rewrite bare_numeric_fails by by apply stops_rev.
    rewrite (re_match_any_first _ (rev ext) _ [rev digits; rev stem]); [done| | |].
    - apply not_newline_all. by rewrite elem_of_rev.
    - cbn [re_match]. rewrite Ascii.eqb_refl.
      change (re_match (Digits1 :: [Lit "_"; AnyStar]) (rev digits ++ "_"%char :: rev stem)
              = Some [rev digits; rev stem]).
      apply re_match_digits; [by apply rev_nonempty|by rewrite forallb_rev|done|].
      cbn [re_match]. rewrite Ascii.eqb_refl. apply re_match_any_last.
      apply not_newline_all. by rewrite elem_of_rev.
    - intros a' b' E _ Hl. eapply leading_group_maximal; [|exact E|exact Hl].
      rewrite not_elem_of_app, not_elem_of_cons, !elem_of_rev.
      split; [by apply not_in_digits|done]. }
  destruct (template_regex_of_match _ _ _ _ (stem ++ py "_") digits (py "." ++ ext) Hm)
    as [_ H].
  { unfold assign. rev_norm. }
  rewrite H. by rewrite <- !app_assoc.
Qed.

Ltac absent :=
  let H := fresh in
  intros H; repeat (apply elem_of_cons in H as [H|H]; [discriminate H|]);
  by apply not_elem_of_nil in H.

Lemma underscore_suffix_witness :
  template_regex (py "xtal_1" ++ py "_" ++ py "0001" ++ py "." ++ py "cbf.gz") =
    Ok (Some (py "xtal_1" ++ py "_" ++ replicate (length (py "0001")) "#"%char
              ++ py "." ++ py "cbf.gz"),
        decimal_value (py "0001")).
Proof.
  apply underscore_suffix.
  - absent.
  - absent.
  - discriminate.
  - reflexivity.
  - absent.
  - intros c H. vm_compute in H. injection H as <-. reflexivity.
Defined.

(** The longest run of a class at the start of a text is unique. *)
Lemma run_unique (ok : ascii -> bool) (a b a' b' : str) :
  forallb ok a = true -> forallb ok a' = true -> stops ok b -> stops ok b' ->
  a ++ b = a' ++ b' -> a = a' /\ b = b'.
Proof.
  intros Ha Ha' Hb Hb' E.
  destruct (Nat.lt_total (length a) (length a')) as [Hl|[Hl|Hl]].
  - exfalso. by apply (no_longer_run ok a b a' b').
  - by apply app_inj_1.
  - exfalso. by apply (no_longer_run ok a' b' a b).
Qed.

(** Digits, then something that is neither a digit nor an underscore:
    the rest of the underscore-delimited pattern fails. *)
Lemma digits_underscore_fails (d y : str) :
  forallb is_digit d = true -> stops is_digit y -> stops is_underscore y ->
  re_match [Digits1; Lit "_"; AnyStar] (d ++ y) = None.
Proof.
  intros Hd Hy Hu.
  destruct (re_match [Digits1; Lit "_"; AnyStar] (d ++ y)) as [gs|] eqn:E; [|done].
  exfalso. apply re_match_cons_inv in E as (g & b & gs' & E & _ & Hg & _ & Hb).
  apply re_match_cons_inv in Hb as (s' & -> & _).
  apply run_unique with (ok := is_digit) in E as [_ ->]; try done.
  all: simpl in Hu; discriminate Hu.
Qed.

Lemma after_dot_fails (e d s : str) :
  "_"%char ∉ e -> forallb is_digit d = true ->
  stops is_digit s -> stops is_underscore s ->
  re_match [Lit "."; Digits1; Lit "_"; AnyStar] (e ++ "."%char :: d ++ s) = None.
Proof.
  intros He Hd Hs Hu. destruct e as [|c e].
  - cbn [app re_match]. rewrite Ascii.eqb_refl. by apply digits_underscore_fails.
  - cbn [app re_match]. destruct (Ascii.eqb c "."); [|done].
    apply not_elem_of_cons in He as [_ He].
    rewrite <- (take_drop_while is_digit e), <- app_assoc.
    apply digits_underscore_fails; [apply take_while_all| |].
    + destruct (drop_while_head is_digit e) as [->|(x & t & -> & Hx)]; done.
    + destruct (drop_while is_digit e) as [|x t] eqn:Ee; [done|].
      simpl. unfold is_underscore. destruct (Ascii.eqb_spec x "_") as [->|]; [|done].
      exfalso. apply He. rewrite <- (take_drop_while is_digit e), Ee.
      apply elem_of_app. right. left.
Qed.

(** No dot of the text is followed by digits and an underscore. *)
Lemma underscore_delimited_fails (e d s : str) :
  "_"%char ∉ e -> forallb is_digit d = true -> "."%char ∉ s ->
  stops is_digit s -> stops is_underscore s ->
  re_match underscore_delimited (e ++ "."%char :: d ++ s) = None.
Proof.
  intros He Hd Hdot Hs Hu. unfold underscore_delimited.
  change (star not_newline
            (fun g rest => cons g <$> re_match [Lit "."; Digits1; Lit "_"; AnyStar] rest)
            [] (e ++ "."%char :: d ++ s) = None).
  apply star_None. intros a b E _. cbn [app].
  assert (Hb : re_match [Lit "."; Digits1; Lit "_"; AnyStar] b = None); [|by rewrite Hb].
  symmetry in E. apply app_eq_inv in E as [(k & -> & E)|(k & -> & ->)].
  - destruct k as [|c k].
    + simpl in E. subst b.
      apply (after_dot_fails [] d s); [apply not_elem_of_nil|done..].
    + injection E as _ E. apply re_match_lit_absent.
      assert (Hds : "."%char ∉ d ++ s).
      { rewrite not_elem_of_app. split; [by apply not_in_digits|done]. }
      rewrite E in Hds. rewrite not_elem_of_app in Hds. tauto.
  - apply after_dot_fails; try done. rewrite not_elem_of_app in He. tauto.
Qed.

(** X5: generic suffix.  For a name made of a stem without dot that
    ends with neither a digit nor an underscore, one or more digits, a
    dot and an extension without underscore that does not end with a
    digit (no newline anywhere), the digits are the index, the prefix is
    the stem and the suffix is the dot with the extension. *)
Theorem generic_suffix_name (stem digits ext : str) :
  "."%char ∉ stem -> newline ∉ stem ->
  (forall c, last stem = Some c -> is_digit c = false /\ is_underscore c = false) ->
  digits <> [] -> forallb is_digit digits = true ->
  newline ∉ ext -> "_"%char ∉ ext ->
  (forall c, last ext = Some c -> is_digit c = false) ->
  template_regex (stem ++ digits ++ py "." ++ ext) =
    Ok (Some (stem ++ replicate (length digits) "#"%char ++ py "." ++ ext),
        decimal_value digits).
Proof.
  intros Hdot Hnl Hstem Hne Hd Henl Heus Hlast.
  assert (Hs1 : stops is_digit (rev stem)).
  { apply stops_rev. intros c Hc. by apply Hstem. }
  assert (Hs2 : stops is_underscore (rev stem)).
  { apply stops_rev. intros c Hc. by apply Hstem. }
  assert (Hm : first_match 0 patterns (rev (stem ++ digits ++ py "." ++ ext))
               = Some (2%nat, generic_suffix, [rev ext; rev digits; rev stem])).
  { rewrite !rev_app_distr. cbn [py list_ascii_of_string rev app].
    rewrite <- !app_assoc. cbn [app]. unfold patterns. cbn [first_match].
    fold bare_numeric underscore_delimited.
    rewrite bare_numeric_fails by by apply stops_rev.
    rewrite underscore_delimited_fails;
      [|by rewrite elem_of_rev|by rewrite forallb_rev|by rewrite elem_of_rev|done|done].
    rewrite (re_match_any_first _ (rev ext) _ [rev digits; rev stem]); [done| | |].
    - apply not_newline_all. by rewrite elem_of_rev.
    - cbn [re_match]. rewrite Ascii.eqb_refl.
      change (re_match (Digits1 :: [AnyStar]) (rev digits ++ rev stem)
              = Some [rev digits; rev stem]).
      apply re_match_digits; [by apply rev_nonempty|by rewrite forallb_rev|done|].
      apply re_match_any_last. apply not_newline_all. by rewrite elem_of_rev.
    - intros a' b' E _ Hl. eapply leading_group_maximal; [|exact E|exact Hl].
      rewrite not_elem_of_app, !elem_of_rev.
      split; [by apply not_in_digits|done]. }
  destruct (template_regex_of_match _ _ _ _ stem digits (py "." ++ ext) Hm) as [_ H].
  { unfold assign. rev_norm. }
  by rewrite H.
Qed.

Lemma generic_suffix_name_witness :
  template_regex (py "image" ++ py "0001" ++ py "." ++ py "cbf.gz") =
    Ok (Some (py "image" ++ replicate (length (py "0001")) "#"%char ++ py "." ++ py "cbf.gz"),
        decimal_value (py "0001")).
Proof.
  apply generic_suffix_name.
  - absent.
  - absent.
  - intros c H. vm_compute in H. injection H as <-. split; reflexivity.
  - discriminate.
  - reflexivity.
  - absent.
  - absent.
  - intros c H. vm_compute in H. injection H as <-. reflexivity.
Defined.

(** ** group_files_by_imageset *)

Lemma collect_entries filenames : forall acc,
  collect filenames acc = Ok (acc ++ map entry filenames).
Proof.
  induction filenames as [|f fs IH]; intros acc; simpl.
  - by rewrite app_nil_r.
  - unfold entry at 1. destruct (template_regex_total f) as (t & i & ->).
    cbn [mbind outcome_bind]. rewrite IH. by rewrite <- app_assoc.
Qed.

Lemma group_entries filenames :
  group_files_by_imageset filenames = Ok (grouped (map entry filenames)).
Proof. unfold group_files_by_imageset. by rewrite collect_entries. Qed.

Lemma grouped_lookup entries key :
  default [] (grouped entries !! key) = values_for key entries /\
  (grouped entries !! key = None <-> values_for key entries = []).
Proof.
  unfold grouped. split.
  - by rewrite lookup_foldl, lookup_empty.
  - rewrite lookup_foldl_None, lookup_empty. tauto.
Qed.

Lemma values_for_app key e1 e2 :
  values_for key (e1 ++ e2) = values_for key e1 ++ values_for key e2.
Proof. unfold values_for. by rewrite filter_app, fmap_app. Qed.

(** X10: grouping a concatenation of two lists of names gives, under
    every key, the values of the first list followed by those of the
    second. *)
Theorem grouping_concat (l1 l2 : list str) :
  exists m1 m2 m12,
    group_files_by_imageset l1 = Ok m1 /\
    group_files_by_imageset l2 = Ok m2 /\
    group_files_by_imageset (l1 ++ l2) = Ok m12 /\
    forall key,
      default [] (m12 !! key) = default [] (m1 !! key) ++ default [] (m2 !! key).
Proof.
  exists (grouped (map entry l1)), (grouped (map entry l2)),
         (grouped (map entry (l1 ++ l2))).
  rewrite !group_entries. split_and!; try done.
  intros key.
  rewrite !(proj1 (grouped_lookup _ key)), map_app. apply values_for_app.
Qed.

(** X11: no group of the result is empty, and every key of the result
    comes from one of the input names: it is the template inferred for
    that name, or the name itself when no template is inferred. *)
Theorem groups_nonempty (filenames : list str) :
  exists matched,
    group_files_by_imageset filenames = Ok matched /\
    forall key values, matched !! key = Some values ->
      values <> [] /\
      exists f template index,
        f ∈ filenames /\ template_regex f = Ok (template, index) /\
        key = default f template.
Proof.
  exists (grouped (map entry filenames)). split; [apply group_entries|].
  intros key values H.
  destruct (grouped_lookup (map entry filenames) key) as [Hd Hn].
  rewrite H in Hd. simpl in Hd. subst values.
  assert (Hne : values_for key (map entry filenames) <> []).
  { intros E. apply Hn in E. congruence. }
  split; [done|].
  unfold values_for in Hne.
  destruct (filter (fun t => t.1 = key) (map entry filenames)) as [|e es] eqn:Ef; [done|].
  assert (He : e ∈ filter (fun t => t.1 = key) (map entry filenames)).
  { rewrite Ef. left. }
  apply list_elem_of_filter in He as [Hk He].
  apply list_elem_of_fmap in He as (f & -> & Hf).
  destruct (template_regex_total f) as (t & i & Ht).
  exists f, t, i. split; [done|]. split; [done|].
  unfold entry in Hk. rewrite Ht in Hk. unfold entry_of in Hk. simpl in Hk.
  by destruct t.
Qed.

(** Every template has a dot. *)
Lemma template_has_dot filename template index :
  template_regex filename = Ok (Some template, index) -> "."%char ∈ template.
Proof.
  intros H.
  apply template_regex_inv in H
    as (j & p & gs & prefix & digits & exten & Hfm & Ha & _ & Hd & -> & _ & _).
  destruct (matched_shape _ _ _ _ Hfm) as (prefix' & digits' & exten' & Ha' & _ & _ & Ht & _).
  rewrite Ha in Ha'. injection Ha' as <- <- <-.
  destruct (first_match_Some _ _ _ _ _ _ Hfm) as [Hm Hp].
  apply re_match_sound in Hm as (Hg & _).
  assert (Hl : Lit "." ∈ p).
  { unfold patterns in Hp.
    repeat (apply elem_of_cons in Hp as [->|Hp]; [by repeat constructor|]).
    by apply not_elem_of_nil in Hp. }
  pose proof (text_literal p _ gs Hl Hg) as Hin.
  rewrite Ht, elem_of_rev, !elem_of_app in Hin.
  unfold render_template. rewrite !elem_of_app.
  destruct Hin as [Hin|[Hin|Hin]]; [by left| |by right; right].
  by apply not_in_digits in Hin.
Qed.

Lemma values_for_dot_free key (filenames : list str) :
  "."%char ∉ key ->
  values_for key (map entry filenames)
  = replicate (length (filter (fun f => f = key) filenames)) None.
Proof.
  intros Hkey. induction filenames as [|f fs IH]; [done|].
  cbn [map]. rewrite values_for_cons, filter_cons, IH.
  unfold entry. destruct (template_regex_total f) as (t & i & Ht). rewrite Ht.
  unfold entry_of. destruct t as [t|]; simpl.
  - pose proof (template_has_dot _ _ _ Ht) as Hdot.
    rewrite decide_False by (intros ->; done).
    rewrite decide_False; [done|]. intros ->.
    assert (Hr : template_regex key = Ok (None, 0)).
    { apply template_regex_None, first_match_None.
      intros p Hp. by apply no_dot_no_match. }
    rewrite Hr in Ht. discriminate Ht.
  - by destruct (decide (f = key)).
Qed.

(** X12: whatever the other names of the input are, a name without a
    dot is grouped under its own name, with one [None] for each of its
    occurrences in the input and nothing else: repeated names are not
    merged, and no other name falls under that key. *)
Theorem grouping_without_template (filenames : list str) (key : str) :
  "."%char ∉ key ->
  exists matched,
    group_files_by_imageset filenames = Ok matched /\
    default [] (matched !! key)
    = replicate (length (filter (fun f => f = key) filenames)) None.
Proof.
  intros H. exists (grouped (map entry filenames)). split; [apply group_entries|].
  rewrite (proj1 (grouped_lookup _ key)). by apply values_for_dot_free.
Qed.

Lemma grouping_without_template_witness :
  exists matched,
    group_files_by_imageset
      [py "README"; py "a_001.img"; py "notes"; py "README"; py "a_002.img"]
      = Ok matched /\
    default [] (matched !! py "README")
    = replicate (length (filter (fun f => f = py "README")
                           [py "README"; py "a_001.img"; py "notes"; py "README";
                            py "a_002.img"])) None.
Proof.
  apply grouping_without_template. absent.
Defined.

(** The name rendered from the locals of a match and an index in range
    has the same template, and that index. *)
Lemma rendered_name_result filename template digits prefix exten i :
  template_locals filename = Ok (Some template, PyStr digits, Some (prefix, exten)) ->
  0 <= i < 10 ^ Z.of_nat (length digits) ->
  template_regex (prefix ++ format_d true (length digits) i ++ exten)
  = Ok (Some template, i).
Proof.
  intros Hl Hi.
  destruct (template_locals_inv _ _ _ _ _ Hl) as (_ & -> & Hne & _).
  unfold template_locals in Hl. rewrite loop_first_match in Hl.
  destruct (first_match 0 patterns (rev filename)) as [[[j p] gs]|] eqn:Hfm; [|done].
  destruct (matched_shape _ _ _ _ Hfm) as (prefix' & digits' & exten' & Ha & _ & _ & _ & Hrep).
  unfold bound in Hl. rewrite Ha in Hl. injection Hl as _ <- <- <-.
  assert (Hlen : (1 <= length digits')%nat) by (destruct digits'; [done|simpl; lia]).
  rewrite format_d_fits by done.
  destruct (Hrep (low_digits (length digits') i))
    as (gs' & Hsim & Ht' & Ha'); [apply low_digits_all|apply low_digits_length|].
  pose proof (first_match_text _ _ _ _ _ _ gs' patterns_plain Hfm Hsim) as Hfm'.
  rewrite Ht' in Hfm'.
  destruct (template_regex_matched _ _ _ _ Hfm')
    as (prefix2 & digits2 & exten2 & Ha2 & _ & _ & _ & Hr).
  rewrite Ha' in Ha2. injection Ha2 as <- <- <-.
  rewrite Hr, low_digits_value, Z.mod_small by done.
  by rewrite (render_template_length prefix' digits') by apply low_digits_length.
Qed.

Lemma values_for_sequence key template (name : Z -> str) (indices : list Z) :
  (forall i, i ∈ indices -> entry (name i) = (template, Some i)) ->
  values_for key (map entry (map name indices))
  = if decide (key = template) then map Some indices else [].
Proof.
  induction indices as [|i rest IH]; intros H.
  - by destruct (decide (key = template)).
  - cbn [map]. rewrite values_for_cons, (H i) by left. simpl.
    rewrite IH by (intros; apply H; by right).
    destruct (decide (template = key)) as [<-|Hne].
    + by rewrite !decide_True.
    + by rewrite !decide_False by congruence.
Qed.

(** X13: the names rendered from one inferred template with indices in
    range form one group: grouping them gives, under the template, the
    indices in the order given, and nothing under any other key. *)
Theorem sequence_is_one_group (filename template digits prefix exten : str)
    (indices : list Z) :
  template_locals filename = Ok (Some template, PyStr digits, Some (prefix, exten)) ->
  (forall i, i ∈ indices -> 0 <= i < 10 ^ Z.of_nat (length digits)) ->
  exists matched,
    group_files_by_imageset
      (map (fun i => prefix ++ format_d true (length digits) i ++ exten) indices)
      = Ok matched /\
    forall key,
      default [] (matched !! key)
      = if decide (key = template) then map Some indices else [].
Proof.
  intros Hl Hi. eexists. split; [apply group_entries|].
  intros key. rewrite (proj1 (grouped_lookup _ key)).
  apply values_for_sequence. intros i Hin. unfold entry.
  by rewrite (rendered_name_result _ _ _ _ _ i Hl) by by apply Hi.
Qed.

Lemma sequence_is_one_group_witness :
  exists matched,
    group_files_by_imageset
      (map (fun i => py "foo_" ++ format_d true (length (py "0001")) i ++ py ".cbf")
         [7; 3; 3; 9999])
      = Ok matched /\
    forall key,
      default [] (matched !! key)
      = if decide (key = py "foo_####.cbf") then map Some [7; 3; 3; 9999] else [].
Proof.
  apply (sequence_is_one_group (py "foo_0001.cbf")).
  - reflexivity.
  - intros i Hi.
    repeat (apply elem_of_cons in Hi as [->|Hi]; [vm_compute; split; [discriminate|reflexivity]|]).
    by apply not_elem_of_nil in Hi.
Defined.

(** ** find_matching_images *)

Lemma digit_char_value c : is_digit c = true -> digit_char (digit_value c) = c.
Proof.
  unfold is_digit, digit_char, digit_value. intros [H1 _]%andb_prop.
  apply Nat.leb_le in H1.
  replace (Z.to_nat (Z.of_nat (nat_of_ascii c) - 48) + 48)%nat with (nat_of_ascii c) by lia.
  apply ascii_nat_embedding.
Qed.

(** Writing the value of a run of digits with as many digits gives the
    run back. *)
Lemma low_digits_decimal s : forallb is_digit s = true ->
  low_digits (length s) (decimal_value s) = s.
Proof.
  induction s as [|c s IH] using rev_ind; [done|].
  rewrite forallb_app, length_app, decimal_value_snoc. simpl.
  intros [Hs [Hc _]%andb_prop]%andb_prop.
  rewrite Nat.add_1_r. cbn [low_digits].
  pose proof (is_digit_value c Hc) as Hv.
  assert (Hq : (10 * decimal_value s + digit_value c) / 10 = decimal_value s).
  { symmetry. apply (Z.div_unique _ 10 _ (digit_value c)); [lia|done]. }
  assert (Hr : (10 * decimal_value s + digit_value c) mod 10 = digit_value c).
  { symmetry. apply (Z.mod_unique _ 10 (decimal_value s)); [lia|done]. }
  by rewrite Hq, Hr, IH, digit_char_value.
Qed.

(** Without newline, the name is exactly prefix, digits and suffix. *)
Lemma exact_name filename template digits prefix exten :
  newline ∉ filename ->
  template_locals filename = Ok (Some template, PyStr digits, Some (prefix, exten)) ->
  filename = prefix ++ digits ++ exten.
Proof.
  intros Hnl Hl. unfold template_locals in Hl. rewrite loop_first_match in Hl.
  destruct (first_match 0 patterns (rev filename)) as [[[j p] gs]|] eqn:Hfm; [|done].
  destruct (matched_shape _ _ _ _ Hfm) as (prefix' & digits' & exten' & Ha & _ & _ & Ht & _).
  unfold bound in Hl. rewrite Ha in Hl. injection Hl as _ <- <- <-.
  destruct (first_match_Some _ _ _ _ _ _ Hfm) as [Hm Hin].
  pose proof patterns_plain as Hplain. rewrite Forall_forall in Hplain.
  destruct (Hplain p Hin) as [_ Hlast].
  apply re_match_all in Hm; [|done|].
  - by rewrite <- (rev_involutive filename), Hm, Ht, rev_involutive.
  - apply not_newline_all. by rewrite elem_of_rev.
Qed.

Lemma upto_elem n j : j ∈ upto n <-> 0 <= j < n.
Proof.
  unfold upto. rewrite list_elem_of_fmap. split.
  - intros (k & -> & Hk%elem_of_seq). lia.
  - intros H. exists (Z.to_nat j). rewrite elem_of_seq. lia.
Qed.

Lemma split_parts_ok c s :
  exists pfx sfx, index (split c s) 0 = Ok pfx /\ index_last (split c s) = Ok sfx.
Proof.
  pose proof (split_nonempty c s) as H. unfold index, index_last.
  destruct (split c s) as [|w ws] eqn:E; [done|].
  destruct (last (w :: ws)) as [x|] eqn:El; [eauto|].
  by apply last_None in El.
Qed.

(** The loop only appends listed names, joined to the directory, and at
    most one for each index. *)
Lemma scan_listed template_str files directory js : forall acc out,
  scan template_str files directory js acc = Ok out ->
  exists found,
    out = acc ++ found /\
    (length found <= length js)%nat /\
    forall path, path ∈ found ->
      exists name, name ∈ files /\ path = os_path_join directory name.
Proof.
  induction js as [|j js IH]; intros acc out H.
  - injection H as <-. exists []. rewrite app_nil_r. split_and!; [done|done|].
    intros path Hp. by apply not_elem_of_nil in Hp.
  - cbn [scan] in H. destruct (format_int template_str j) as [name|e] eqn:Ef; [|done].
    cbn [mbind outcome_bind] in H. destruct (mem name files) eqn:Em.
    + apply IH in H as (found & -> & Hlen & Hall).
      exists (os_path_join directory name :: found). rewrite <- app_assoc.
      split_and!; [done|simpl; lia|].
      intros path [->|Hp]%elem_of_cons; [|by apply Hall].
      exists name. split; [by apply mem_spec|done].
    + apply IH in H as (found & -> & Hlen & Hall).
      exists found. split_and!; [done|simpl; lia|done].
Qed.

(** X6: for a path whose file name has a template and contains neither
    ["#"] nor ["%"], when the directory of the path (["."] when it has
    none) can be listed and the range of the candidate indices can be
    built, [find_matching_images] lists the directory once and returns,
    for the indices from 0 up to 10 to the number of digits, in
    increasing order, the names prefix + index padded with zeros +
    suffix that are in the listing, each joined to the directory: at
    most 10 to the number of digits paths. *)
Theorem matching_images_of_plain_name (image_name : str) (fs : filesystem)
    (log : list str) (directory filename template digits prefix exten : str)
    (files : list str) :
  os_path_split image_name = (directory, filename) ->
  template_locals filename = Ok (Some template, PyStr digits, Some (prefix, exten)) ->
  "#"%char ∉ filename -> "%"%char ∉ filename ->
  fs (listed_directory directory) = Ok files ->
  range0 (10 ^ Z.of_nat (length digits)) = Ok (upto (10 ^ Z.of_nat (length digits))) ->
  exists paths,
    find_matching_images image_name fs log
      = (Ok paths, log ++ [listed_directory directory]) /\
    paths =
      map (fun j => os_path_join (listed_directory directory)
                      (prefix ++ format_d true (length digits) j ++ exten))
        (filter (fun j => prefix ++ format_d true (length digits) j ++ exten ∈ files)
           (upto (10 ^ Z.of_nat (length digits)))) /\
    Z.of_nat (length paths) <= 10 ^ Z.of_nat (length digits).
Proof.
  intros Hs Hl Hhash Hpct Hfs Hrange. eexists. split; [|split; [reflexivity|]].
  - rewrite (find_matching_images_spec image_name fs log directory filename
               template digits prefix exten files) by done.
    by rewrite Hrange.
  - apply matching_images_bound. apply Z.pow_nonneg. lia.
Qed.

Lemma matching_images_of_plain_name_witness :
  exists paths,
    find_matching_images (py "data/a_01.img")
      (one_directory (py "data") [py "a_03.img"; py "a_01.img"; py "junk"]) []
      = (Ok paths, [] ++ [listed_directory (py "data")]) /\
    paths =
      map (fun j => os_path_join (listed_directory (py "data"))
                      (py "a_" ++ format_d true (length (py "01")) j ++ py ".img"))
        (filter (fun j => py "a_" ++ format_d true (length (py "01")) j ++ py ".img"
                          ∈ [py "a_03.img"; py "a_01.img"; py "junk"])
           (upto (10 ^ Z.of_nat (length (py "01"))))) /\
    Z.of_nat (length paths) <= 10 ^ Z.of_nat (length (py "01")).
Proof.
  apply (matching_images_of_plain_name (py "data/a_01.img") _ [] (py "data")
           (py "a_01.img") (py "a_##.img")).
  - reflexivity.
  - reflexivity.
  - absent.
  - absent.
  - reflexivity.
  - reflexivity.
Defined.

(** X7: when the file name has a template and listing the directory
    fails, [find_matching_images] fails with the same exception, after
    that one attempt to list: the error is not turned into an empty
    result. *)
Theorem listing_error_propagates (image_name : str) (fs : filesystem)
    (log : list str) (directory filename template : str) (n : Z) (e : exn) :
  os_path_split image_name = (directory, filename) ->
  template_regex filename = Ok (Some template, n) ->
  fs (listed_directory directory) = Raise e ->
  find_matching_images image_name fs log
  = (Raise e, log ++ [listed_directory directory]).
Proof.
  intros Hs Ht Hfs.
  destruct (split_parts_ok "#" template) as (pfx & sfx & Hp & Hx).
  assert (Hne : template <> []).
  { apply template_regex_inv in Ht as (? & ? & ? & p' & d' & e' & _ & _ & Hd & _ & -> & _).
    unfold render_template. destruct p'; [|done]. by destruct d'. }
  rewrite (find_matching_images_found image_name fs log directory filename template n
             pfx sfx _ Hs Ht Hne Hp Hx (format_width_spec _)).
  fold (listed_directory directory). by rewrite Hfs.
Qed.

Lemma listing_error_propagates_witness :
  find_matching_images (py "gone/a_01.img") (fun _ => Raise OSError) []
  = (Raise OSError, [] ++ [listed_directory (py "gone")]).
Proof.
  apply (listing_error_propagates (py "gone/a_01.img") _ [] (py "gone")
           (py "a_01.img") (py "a_##.img") 1); reflexivity.
Defined.

Lemma split_pieces c s : forall w, w ∈ split c s -> forall x, x ∈ w -> x ∈ s.
Proof.
  induction s as [|x0 s IH]; intros w Hw x Hx; simpl in Hw.
  - apply list_elem_of_singleton in Hw as ->. done.
  - destruct (Ascii.eqb x0 c).
    + apply elem_of_cons in Hw as [->|Hw]; [by apply not_elem_of_nil in Hx|].
      right. by apply (IH w).
    + destruct (split c s) as [|w0 ws].
      * apply list_elem_of_singleton in Hw as ->.
        apply list_elem_of_singleton in Hx as ->. left.
      * apply elem_of_cons in Hw as [->|Hw].
        -- apply elem_of_cons in Hx as [->|Hx]; [left|right].
           apply (IH w0); [left|done].
        -- right. apply (IH w); [by right|done].
Qed.

Lemma index_elem {A} (l : list A) i x : index l i = Ok x -> x ∈ l.
Proof.
  unfold index. destruct (nth_error l i) eqn:E; [|done]. intros [= <-].
  apply list_elem_of_In. by apply nth_error_In in E.
Qed.

Lemma index_last_elem {A} (l : list A) x : index_last l = Ok x -> x ∈ l.
Proof.
  unfold index_last. destruct (last l) eqn:E; [|done]. intros [= <-].
  by apply last_Some_elem_of.
Qed.

(** X8: for a path whose file name has a template and contains no
    ["%"] (it may contain ["#"]), when the directory can be listed and
    the range of the candidate indices can be built,
    [find_matching_images] raises nothing, returns only names of the
    listing joined to the directory, and returns at most 10 to the
    number of ["#"] of the template of them. *)
Theorem returned_paths_are_listed (image_name : str) (fs : filesystem)
    (log : list str) (directory filename template : str) (n : Z) (files : list str) :
  os_path_split image_name = (directory, filename) ->
  template_regex filename = Ok (Some template, n) ->
  "%"%char ∉ filename ->
  fs (listed_directory directory) = Ok files ->
  range0 (10 ^ Z.of_nat (count "#" template))
    = Ok (upto (10 ^ Z.of_nat (count "#" template))) ->
  exists paths,
    find_matching_images image_name fs log
      = (Ok paths, log ++ [listed_directory directory]) /\
    Z.of_nat (length paths) <= 10 ^ Z.of_nat (count "#" template) /\
    forall path, path ∈ paths ->
      exists name, name ∈ files /\ path = os_path_join (listed_directory directory) name.
Proof.
  intros Hs Ht Hpct Hfs Hrange.
  destruct (split_parts_ok "#" template) as (pfx & sfx & Hp & Hx).
  pose proof Ht as Hinv.
  apply template_regex_inv in Hinv
    as (? & ? & ? & prefix & digits & exten & _ & _ & Hd & _ & Htpl & _ & Hl).
  destruct (template_locals_inv _ _ _ _ _ Hl) as (_ & _ & _ & before & Hf).
  assert (Hne : template <> []).
  { rewrite Htpl. unfold render_template. destruct prefix; [|done]. by destruct digits. }
  assert (Htp : "%"%char ∉ template).
  { rewrite Htpl, render_template_replicate. rewrite Hf in Hpct.
    rewrite !not_elem_of_app in Hpct. rewrite !not_elem_of_app.
    split; [tauto|]. split; [|tauto].
    intros [E _]%elem_of_replicate. discriminate E. }
  assert (Hpp : "%"%char ∉ pfx).
  { intros H. apply Htp. apply (split_pieces "#" template pfx); [|done].
    by apply index_elem in Hp. }
  assert (Hps : "%"%char ∉ sfx).
  { intros H. apply Htp. apply (split_pieces "#" template sfx); [|done].
    by apply index_last_elem in Hx. }
  rewrite (find_matching_images_found image_name fs log directory filename template n
             pfx sfx _ Hs Ht Hne Hp Hx (format_width_spec _)).
  fold (listed_directory directory). rewrite Hfs. cbn [mbind outcome_bind].
  rewrite Hrange. cbn [mbind outcome_bind].
  rewrite (scan_spec _ _ _
             (fun j => pfx ++ format_d true (count "#" template) j ++ sfx));
    [|intros j _; by apply format_template_str].
  eexists. split; [reflexivity|]. split.
  - apply matching_images_bound. apply Z.pow_nonneg. lia.
  - intros path (j & -> & Hj)%list_elem_of_fmap.
    apply list_elem_of_filter in Hj as [Hin _]. eauto.
Qed.

Lemma returned_paths_are_listed_witness :
  exists paths,
    find_matching_images (py "a#b_1.img")
      (one_directory (py ".") [py "a#b_1.img"; py "a00.img"]) []
      = (Ok paths, [] ++ [listed_directory (py "")]) /\
    Z.of_nat (length paths) <= 10 ^ Z.of_nat (count "#" (py "a#b_#.img")) /\
    forall path, path ∈ paths ->
      exists name, name ∈ [py "a#b_1.img"; py "a00.img"] /\
                   path = os_path_join (listed_directory (py "")) name.
Proof.
  apply (returned_paths_are_listed (py "a#b_1.img") _ [] (py "") (py "a#b_1.img")
           (py "a#b_#.img") 1 [py "a#b_1.img"; py "a00.img"]).
  - reflexivity.
  - reflexivity.
  - absent.
  - reflexivity.
  - reflexivity.
Defined.

(** X9: when the file name has a template, contains no ["#"], ["%"] or
    newline, and is itself in the listing of its directory, and the
    range of the candidate indices can be built, the result of
    [find_matching_images] contains it, joined to the directory. *)
Theorem asked_image_is_returned (image_name : str) (fs : filesystem)
    (log : list str) (directory filename template : str) (n : Z) (files : list str) :
  os_path_split image_name = (directory, filename) ->
  template_regex filename = Ok (Some template, n) ->
  "#"%char ∉ filename -> "%"%char ∉ filename -> newline ∉ filename ->
  fs (listed_directory directory) = Ok files ->
  range0 (10 ^ Z.of_nat (count "#" template))
    = Ok (upto (10 ^ Z.of_nat (count "#" template))) ->
  filename ∈ files ->
  exists paths,
    find_matching_images image_name fs log
      = (Ok paths, log ++ [listed_directory directory]) /\
    os_path_join (listed_directory directory) filename ∈ paths.
Proof.
  intros Hs Ht Hhash Hpct Hnl Hfs Hrange Hin.
  apply template_regex_inv in Ht
    as (? & ? & ? & prefix & digits & exten & _ & _ & Hne & Hd & -> & -> & Hl).
  pose proof (exact_name _ _ _ _ _ Hnl Hl) as Hf.
  assert (Hlen : (1 <= length digits)%nat) by (destruct digits; [done|simpl; lia]).
  assert (Hc : count "#" (render_template prefix digits exten) = length digits).
  { rewrite render_template_replicate. apply split_template; [| |done].
    - rewrite Hf in Hhash. rewrite !not_elem_of_app in Hhash. tauto.
    - rewrite Hf in Hhash. rewrite !not_elem_of_app in Hhash. tauto. }
  rewrite Hc in Hrange.
  eexists. split.
  - rewrite (find_matching_images_spec image_name fs log directory filename
               _ digits prefix exten files) by done.
    by rewrite Hrange.
  - apply list_elem_of_fmap. exists (decimal_value digits).
    pose proof (decimal_value_bound digits Hd) as Hb.
    assert (Hname : prefix ++ format_d true (length digits) (decimal_value digits) ++ exten
                    = filename).
    { by rewrite format_d_fits, low_digits_decimal by done. }
    split; [by rewrite Hname|].
    apply list_elem_of_filter. split; [by rewrite Hname|by apply upto_elem].
Qed.

Lemma asked_image_is_returned_witness :
  exists paths,
    find_matching_images (py "data/a_07.img")
      (one_directory (py "data") [py "a_07.img"]) []
      = (Ok paths, [] ++ [listed_directory (py "data")]) /\
    os_path_join (listed_directory (py "data")) (py "a_07.img") ∈ paths.
Proof.
  apply (asked_image_is_returned (py "data/a_07.img") _ [] (py "data") (py "a_07.img")
           (py "a_##.img") 7 [py "a_07.img"]).
  - reflexivity.
  - reflexivity.
  - absent.
  - absent.
  - absent.
  - reflexivity.
  - reflexivity.
  - left.
Defined.

(** X14: when the file name has a template with so many ["#"] that 10
    to their number exceeds the largest plain integer, and the directory
    can be listed, [find_matching_images] raises the [OverflowError] of
    [range] after the listing, and returns nothing. *)
Theorem too_many_digits_overflow (image_name : str) (fs : filesystem)
    (log : list str) (directory filename template : str) (n : Z) (files : list str) :
  os_path_split image_name = (directory, filename) ->
  template_regex filename = Ok (Some template, n) ->
  fs (listed_directory directory) = Ok files ->
  sys_maxint < 10 ^ Z.of_nat (count "#" template) ->
  find_matching_images image_name fs log
  = (Raise OverflowError, log ++ [listed_directory directory]).
Proof.
  intros Hs Ht Hfs Hbig.
  destruct (split_parts_ok "#" template) as (pfx & sfx & Hp & Hx).
  assert (Hne : template <> []).
  { apply template_regex_inv in Ht as (? & ? & ? & p' & d' & e' & _ & _ & Hd & _ & -> & _).
    unfold render_template. destruct p'; [|done]. by destruct d'. }
  rewrite (find_matching_images_found image_name fs log directory filename template n
             pfx sfx _ Hs Ht Hne Hp Hx (format_width_spec _)).
  fold (listed_directory directory). rewrite Hfs. cbn [mbind outcome_bind].
  unfold range0. destruct (Z.leb_spec (10 ^ Z.of_nat (count "#" template)) sys_maxint); [lia|].
  done.
Qed.

Lemma too_many_digits_overflow_witness :
  find_matching_images (py "a_1615550000123456789.img")
    (one_directory (py ".") [py "a_1615550000123456789.img"]) []
  = (Raise OverflowError, [] ++ [listed_directory (py "")]).
Proof.
  apply (too_many_digits_overflow (py "a_1615550000123456789.img") _ [] (py "")
           (py "a_1615550000123456789.img") (py "a_###################.img")
           1615550000123456789 [py "a_1615550000123456789.img"]); reflexivity.
Defined.
